(** * Sales forecasting core: feature builder and forward forecaster

    A shallow embedding of [utils.py]: [validate_dataframe],
    [prepare_features] and [predict_future], with the properties of the
    design specification stated over it.

    Numbers are exact rationals extended with the missing-value marker of
    pandas ([NaN]); a table is the list of its rows in row order. *)

From Stdlib Require Import List String Ascii ZArith NArith QArith Qround Bool Lia Lqa.
From Stdlib Require Import Permutation.
Import ListNotations.

(* ================================================================= *)
(** * Numbers with a missing-value marker *)

Module Numeric.

(** A numeric cell of a table: a number or NaN. *)
Inductive num : Type :=
| Num (q : Q)
| NaN.

Definition isna (x : num) : bool :=
  match x with NaN => true | Num _ => false end.

(** Arithmetic propagates NaN. *)
Definition lift2 (f : Q -> Q -> Q) (a b : num) : num :=
  match a, b with
  | Num x, Num y => Num (f x y)
  | _, _ => NaN
  end.

Definition nadd : num -> num -> num := lift2 Qplus.
Definition nsub : num -> num -> num := lift2 Qminus.
Definition nmul : num -> num -> num := lift2 Qmult.
Definition ndiv : num -> num -> num := lift2 Qdiv.

Definition Qlt_bool (x y : Q) : bool := negb (Qle_bool y x).

(** Comparisons involving NaN are false. *)
Definition nlt (a b : num) : bool :=
  match a, b with
  | Num x, Num y => Qlt_bool x y
  | _, _ => false
  end.

(** Python's [max(a, b)]: the first argument unless the second is
    strictly greater. *)
Definition py_max (a b : num) : num := if nlt a b then b else a.

Definition Qpy_max (a b : Q) : Q := if Qlt_bool a b then b else a.

(** [fillna(0)] on one cell. *)
Definition fill0 (x : num) : num :=
  match x with NaN => Num 0 | Num _ => x end.

(** Equality of cells up to the value of the rational. *)
Definition num_eq (a b : num) : Prop :=
  match a, b with
  | Num x, Num y => x == y
  | NaN, NaN => True
  | _, _ => False
  end.

(** [x >= 0] on a cell; false on NaN. *)
Definition nonneg (x : num) : Prop :=
  match x with Num q => 0 <= q | NaN => False end.

Definition of_Z (z : Z) : num := Num (inject_Z z).

(** [Series.min()] and [Series.max()]: NaN is skipped, and the result is
    NaN when no value is left. *)
Fixpoint series_min (l : list num) : num :=
  match l with
  | [] => NaN
  | x :: t =>
      match x, series_min t with
      | NaN, m => m
      | Num a, NaN => Num a
      | Num a, Num b => Num (if Qle_bool a b then a else b)
      end
  end.

Fixpoint series_max (l : list num) : num :=
  match l with
  | [] => NaN
  | x :: t =>
      match x, series_max t with
      | NaN, m => m
      | Num a, NaN => Num a
      | Num a, Num b => Num (if Qle_bool b a then a else b)
      end
  end.

(** The values of a window that are not NaN. *)
Definition valid_values (l : list num) : list Q :=
  flat_map (fun x => match x with Num q => [q] | NaN => [] end) l.

Definition Qsum (l : list Q) : Q := fold_right Qplus 0 l.

(** Mean of the observed values; NaN when there is none. *)
Definition mean (l : list Q) : num :=
  match l with
  | [] => NaN
  | _ :: _ => Num (Qsum l / inject_Z (Z.of_nat (List.length l)))
  end.

End Numeric.
Import Numeric.

(* ================================================================= *)
(** * Input tables and validation *)

(** A cell of the raw table.  Text that [pd.to_numeric] reads as a number
    is represented by that number; [CText] is text it cannot read. *)
Inductive cell : Type :=
| CNum (q : Q)
| CText (s : string)
| CNull.

(** [pd.to_numeric(..., errors='coerce')] on one cell. *)
Definition to_numeric (c : cell) : num :=
  match c with CNum q => Num q | CText _ => NaN | CNull => NaN end.

Definition coerce_cell (c : cell) : cell :=
  match to_numeric c with Num q => CNum q | NaN => CNull end.

Definition isnull (c : cell) : bool :=
  match c with CNull => true | _ => false end.

(** One row of the raw table.  The cells of a required column are read
    only when [columns] lists the column.  The item name is a string
    (the product_name of the data model) and is never missing. *)
Record raw_row : Type := {
  r_Tahun : cell;
  r_Bulan : cell;
  r_Nama_Item : string;
  r_total_jumlah : cell
}.

Record DataFrame : Type := {
  columns : list string;
  records : list raw_row
}.

Inductive verror : Type :=
| MissingColumns (cols : list string)
| MonthOutOfRange
| EmptyFrame.

Inductive vwarning : Type :=
| MissingValues (n : nat)
| YearOutOfRange
| NegativeSales.

Record validation_result : Type := {
  is_valid : bool;
  errors : list verror;
  warnings : list vwarning
}.

Definition required_cols : list string :=
  ["Tahun"; "Bulan"; "Nama Item"; "total_jumlah"]%string.

Definition has_column (df : DataFrame) (c : string) : bool :=
  existsb (String.eqb c) (columns df).

Definition coerce_row (r : raw_row) : raw_row :=
  {| r_Tahun := coerce_cell (r_Tahun r);
     r_Bulan := coerce_cell (r_Bulan r);
     r_Nama_Item := r_Nama_Item r;
     r_total_jumlah := coerce_cell (r_total_jumlah r) |}.

(** The three [pd.to_numeric] assignments of [validate_dataframe]. *)
Definition coerce (df : DataFrame) : DataFrame :=
  {| columns := columns df; records := map coerce_row (records df) |}.

Definition col_Tahun (df : DataFrame) : list num :=
  map (fun r => to_numeric (r_Tahun r)) (records df).
Definition col_Bulan (df : DataFrame) : list num :=
  map (fun r => to_numeric (r_Bulan r)) (records df).
Definition col_total_jumlah (df : DataFrame) : list num :=
  map (fun r => to_numeric (r_total_jumlah r)) (records df).

(** [df[required_cols].isnull().sum().sum()]: the missing cells of the
    three numeric columns; the name column adds none, a name being never
    missing in a [raw_row]. *)
Definition null_count_row (r : raw_row) : nat :=
  ((if isnull (r_Tahun r) then 1 else 0)
   + (if isnull (r_Bulan r) then 1 else 0)
   + (if isnull (r_total_jumlah r) then 1 else 0))%nat.

Definition missing_data (df : DataFrame) : nat :=
  fold_right (fun r n => (null_count_row r + n)%nat) 0%nat (records df).

Definition month_out_of_range (df : DataFrame) : bool :=
  nlt (series_min (col_Bulan df)) (Num 1)
  || nlt (Num 12) (series_max (col_Bulan df)).

Definition year_out_of_range (df : DataFrame) : bool :=
  nlt (series_min (col_Tahun df)) (Num 1900)
  || nlt (Num 2100) (series_max (col_Tahun df)).

Definition any_negative (df : DataFrame) : bool :=
  existsb (fun x => nlt x (Num 0)) (col_total_jumlah df).

Definition empty (df : DataFrame) : bool :=
  match records df with [] => true | _ :: _ => false end.

(** [validate_dataframe]: the result together with the table as the
    function leaves it (the numeric columns coerced in place). *)
Definition validate_dataframe (df : DataFrame)
  : validation_result * DataFrame :=
  let missing_cols := filter (fun c => negb (has_column df c)) required_cols in
  match missing_cols with
  | _ :: _ =>
      ({| is_valid := false;
          errors := [MissingColumns missing_cols];
          warnings := [] |}, df)
  | [] =>
      let df := coerce df in
      let w_missing :=
        if (0 <? missing_data df)%nat then [MissingValues (missing_data df)]
        else [] in
      let w_year := if year_out_of_range df then [YearOutOfRange] else [] in
      let e_month := if month_out_of_range df then [MonthOutOfRange] else [] in
      let w_neg := if any_negative df then [NegativeSales] else [] in
      let e_empty := if empty df then [EmptyFrame] else [] in
      ({| is_valid := negb (month_out_of_range df) && negb (empty df);
          errors := e_month ++ e_empty;
          warnings := w_missing ++ w_year ++ w_neg |}, df)
  end.

(* ================================================================= *)
(** * Library functions left open *)

(** The two library calls whose result the development does not compute.
    Every statement below holds for any choice of them. *)
Class Library : Type := {
  (** [pd.to_datetime] on the text built from a year cell and a month
      cell, [year-month-01]: the calendar month it denotes, numbered
      [12 * year + (month - 1)], or [None] when the call raises. *)
  to_datetime : num -> num -> option Z;
  (** The square root taken by [Series.std]. *)
  sqrt : Q -> Q
}.

(** A period is a calendar month (always the first day of the month in
    this program), numbered [12 * year + (month - 1)]. *)
Definition period : Type := Z.
Definition period_year (p : period) : Z := (p / 12)%Z.
Definition period_month (p : period) : Z := (p mod 12 + 1)%Z.
(** [p + pd.DateOffset(months=i)]. *)
Definition add_months (p : period) (i : Z) : period := (p + i)%Z.

(* ================================================================= *)
(** * Sorting a table by columns *)

Section Sorting.
Variable A : Type.
Variable leb : A -> A -> bool.

Fixpoint insert (x : A) (l : list A) : list A :=
  match l with
  | [] => [x]
  | y :: t => if leb x y then x :: y :: t else y :: insert x t
  end.

(** [sort_values] on several columns is a stable sort. *)
Fixpoint sort_values (l : list A) : list A :=
  match l with
  | [] => []
  | x :: t => insert x (sort_values t)
  end.

(** Every row is ranked before the rows below it. *)
Inductive sorted : list A -> Prop :=
| sorted_nil : sorted []
| sorted_cons x l :
    (forall y, In y l -> leb x y = true) -> sorted l -> sorted (x :: l).
End Sorting.

Arguments insert {A} leb x l.
Arguments sort_values {A} leb l.
Arguments sorted {A} leb l.

(** Order of the pair of columns [(Nama Item, periode)]. *)
Definition key_leb (a b : string * period) : bool :=
  match String.compare (fst a) (fst b) with
  | Lt => true
  | Eq => (snd a <=? snd b)%Z
  | Gt => false
  end.

Definition key_eqb (a b : string * period) : bool :=
  String.eqb (fst a) (fst b) && (snd a =? snd b)%Z.

(* ================================================================= *)
(** * Feature builder *)

(** A validated row with its period. *)
Record period_row : Type := {
  p_Tahun : num;
  p_Bulan : num;
  p_Nama_Item : string;
  p_total_jumlah : num;
  p_periode : period
}.

(** A row of the feature table. *)
Record feature_row : Type := {
  Tahun : num;
  Bulan : num;
  Nama_Item : string;
  total_jumlah : num;
  periode : period;
  quarter : num;
  is_start_year : num;
  is_end_year : num;
  lag_1 : num;
  lag_2 : num;
  lag_3 : num;
  ma_3 : num;
  ma_6 : num;
  diff_1 : num
}.

Definition p_key (r : period_row) : string * period :=
  (p_Nama_Item r, p_periode r).

(** The order of [sort_values(['Nama Item', 'periode'])]. *)
Definition by_key (a b : period_row) : bool := key_leb (p_key a) (p_key b).

Definition neqb (a b : num) : bool :=
  match a, b with
  | Num x, Num y => Qeq_bool x y
  | _, _ => false
  end.

Definition flag (b : bool) : num := Num (if b then 1 else 0).

(** [(x - 1) // 3 + 1]. *)
Definition quarter_of (x : num) : num :=
  match x with
  | Num m => Num (inject_Z (Qfloor ((m - 1) / 3)) + 1)
  | NaN => NaN
  end.

(** The features of one row, from the quantities of the earlier rows of
    its group, most recent first. *)
Definition shift (lag : nat) (history : list num) : num :=
  nth (lag - 1) history NaN.

(** [rolling(window, min_periods=1).mean()]: the mean of the values of
    the window that are not NaN. *)
Definition rolling_mean (window : nat) (own : num) (history : list num) : num :=
  mean (valid_values (own :: firstn (window - 1) history)).

Definition diff (own : num) (history : list num) : num :=
  nsub own (shift 1 history).

Definition feature_row_of (history : list num) (r : period_row) : feature_row :=
  {| Tahun := p_Tahun r;
     Bulan := p_Bulan r;
     Nama_Item := p_Nama_Item r;
     total_jumlah := p_total_jumlah r;
     periode := p_periode r;
     quarter := quarter_of (p_Bulan r);
     is_start_year := flag (neqb (p_Bulan r) (Num 1));
     is_end_year := flag (neqb (p_Bulan r) (Num 12));
     lag_1 := shift 1 history;
     lag_2 := shift 2 history;
     lag_3 := shift 3 history;
     ma_3 := rolling_mean 3 (p_total_jumlah r) history;
     ma_6 := rolling_mean 6 (p_total_jumlah r) history;
     diff_1 := diff (p_total_jumlah r) history |}.

(** The quantities of the rows of group [name] among [before], the rows
    above the current one, nearest first. *)
Definition group_history (name : string) (before : list period_row) : list num :=
  map p_total_jumlah
      (filter (fun r => String.eqb (p_Nama_Item r) name) before).

(** [groupby('Nama Item')] followed by [shift], [rolling] and [diff],
    over a table in its sorted order. *)
Fixpoint add_features (before rows : list period_row) : list feature_row :=
  match rows with
  | [] => []
  | r :: rest =>
      feature_row_of (group_history (p_Nama_Item r) before) r
        :: add_features (r :: before) rest
  end.

(** [df.fillna(0)]. *)
Definition fillna (r : feature_row) : feature_row :=
  {| Tahun := fill0 (Tahun r);
     Bulan := fill0 (Bulan r);
     Nama_Item := Nama_Item r;
     total_jumlah := fill0 (total_jumlah r);
     periode := periode r;
     quarter := fill0 (quarter r);
     is_start_year := fill0 (is_start_year r);
     is_end_year := fill0 (is_end_year r);
     lag_1 := fill0 (lag_1 r);
     lag_2 := fill0 (lag_2 r);
     lag_3 := fill0 (lag_3 r);
     ma_3 := fill0 (ma_3 r);
     ma_6 := fill0 (ma_6 r);
     diff_1 := fill0 (diff_1 r) |}.

Definition row_key (r : feature_row) : string * period :=
  (Nama_Item r, periode r).

(** The rows of one item. *)
Definition is_item (item : string) (r : feature_row) : bool :=
  String.eqb (Nama_Item r) item.

(** The columns of a feature row that come from the input. *)
Definition base_of (r : feature_row) : period_row :=
  {| p_Tahun := Tahun r; p_Bulan := Bulan r; p_Nama_Item := Nama_Item r;
     p_total_jumlah := total_jumlah r; p_periode := periode r |}.

(** [fillna(0)] on the input columns. *)
Definition fill_base (r : period_row) : period_row :=
  {| p_Tahun := fill0 (p_Tahun r); p_Bulan := fill0 (p_Bulan r);
     p_Nama_Item := p_Nama_Item r;
     p_total_jumlah := fill0 (p_total_jumlah r);
     p_periode := p_periode r |}.

(** The input table without the rows of one item. *)
Definition drop_item (item : string) (df : DataFrame) : DataFrame :=
  {| columns := columns df;
     records := filter (fun r => negb (String.eqb (r_Nama_Item r) item))
                       (records df) |}.

Section FeatureBuilder.
Context {L : Library}.

Definition with_periode (r : raw_row) : option period_row :=
  let t := to_numeric (r_Tahun r) in
  let b := to_numeric (r_Bulan r) in
  match to_datetime t b with
  | Some p =>
      Some {| p_Tahun := t; p_Bulan := b;
              p_Nama_Item := r_Nama_Item r;
              p_total_jumlah := to_numeric (r_total_jumlah r);
              p_periode := p |}
  | None => None
  end.

(** The [periode] column; [None] when [pd.to_datetime] raises. *)
Fixpoint create_periode (rows : list raw_row) : option (list period_row) :=
  match rows with
  | [] => Some []
  | r :: t =>
      match with_periode r, create_periode t with
      | Some x, Some l => Some (x :: l)
      | _, _ => None
      end
  end.

(** [prepare_features] after validation. *)
Definition build_features (df : DataFrame) : option (list feature_row) :=
  match create_periode (records df) with
  | None => None
  | Some rows =>
      let ordered := sort_values by_key rows in
      Some (map fillna (add_features [] ordered))
  end.

(** [prepare_features]: [None] is the source's [return None]. *)
Definition prepare_features (df : DataFrame) : option (list feature_row) :=
  let (validation, df) := validate_dataframe df in
  if negb (is_valid validation) then None
  else build_features df.
End FeatureBuilder.

(* ================================================================= *)
(** * Forward forecaster *)

(** The eleven features handed to the model. *)
Record feature_vector : Type := {
  x_Tahun : num;
  x_Bulan : num;
  x_quarter : num;
  x_is_start_year : num;
  x_is_end_year : num;
  x_lag_1 : num;
  x_lag_2 : num;
  x_lag_3 : num;
  x_ma_3 : num;
  x_ma_6 : num;
  x_diff_1 : num
}.

(** [model.predict]: one number per row of the frame it is given, or
    [None] when the call raises. *)
Definition Model : Type := list feature_vector -> option (list Q).

(** A row of the running prediction set and of the forecast table. *)
Record forecast_row : Type := {
  f_Nama_Item : string;
  f_periode : period;
  prediksi_jumlah : Q;
  CI_lower : num;
  CI_upper : num
}.

(** The column [confidence_level] added to the finished table. *)
Definition confidence_level (r : forecast_row) : string := "95%".

Definition f_key (r : forecast_row) : string * period :=
  (f_Nama_Item r, f_periode r).

Inductive failure : Type :=
| DataOrModelUnavailable
| MonthsOutOfRange
| NoPredictions.

Inductive outcome : Type :=
| Forecast (table : list forecast_row)
| Failed (why : failure).

(** [clean_df[feature_cols]] on one row. *)
Definition feature_cols (r : feature_row) : feature_vector :=
  {| x_Tahun := Tahun r; x_Bulan := Bulan r; x_quarter := quarter r;
     x_is_start_year := is_start_year r; x_is_end_year := is_end_year r;
     x_lag_1 := lag_1 r; x_lag_2 := lag_2 r; x_lag_3 := lag_3 r;
     x_ma_3 := ma_3 r; x_ma_6 := ma_6 r; x_diff_1 := diff_1 r |}.

Definition has_na (r : feature_row) : bool :=
  isna (Tahun r) || isna (Bulan r) || isna (total_jumlah r)
  || isna (quarter r) || isna (is_start_year r) || isna (is_end_year r)
  || isna (lag_1 r) || isna (lag_2 r) || isna (lag_3 r)
  || isna (ma_3 r) || isna (ma_6 r) || isna (diff_1 r).

(** [df.dropna()]. *)
Definition dropna (df : list feature_row) : list feature_row :=
  filter (fun r => negb (has_na r)) df.

(** [df.groupby('Nama Item').tail(1)]: the last row of every item, in
    table order. *)
Fixpoint last_data (df : list feature_row) : list feature_row :=
  match df with
  | [] => []
  | r :: t =>
      if existsb (fun r' => String.eqb (Nama_Item r') (Nama_Item r)) t
      then last_data t
      else r :: last_data t
  end.

(** [y_current - y_pred_current]. *)
Fixpoint residuals (y : list num) (y_pred : list Q) : list num :=
  match y, y_pred with
  | a :: y', b :: p' => nsub a (Num b) :: residuals y' p'
  | _, _ => []
  end.

Section Forecaster.
Context {L : Library}.

(** [Series.std()]: the sample standard deviation of the values that
    are not NaN, normalised by [n - 1]; NaN for fewer than two. *)
Definition std (s : list num) : num :=
  let v := valid_values s in
  match v with
  | [] => NaN
  | [_] => NaN
  | _ :: _ :: _ =>
      let n := inject_Z (Z.of_nat (List.length v)) in
      let m := Qsum v / n in
      Num (sqrt (Qsum (map (fun x => (x - m) * (x - m)) v) / (n - 1)))
  end.

(** The residual spread of the model on the history; 0 when there is
    no clean row or when the computation raises. *)
Definition std_pred (df : list feature_row) (model : Model) : num :=
  let clean_df := dropna df in
  match clean_df with
  | [] => Num 0
  | _ :: _ =>
      match model (map feature_cols clean_df) with
      | None => Num 0
      | Some y_pred_current =>
          if (List.length y_pred_current =? List.length clean_df)%nat
          then std (residuals (map total_jumlah clean_df) y_pred_current)
          else Num 0
      end
  end.
End Forecaster.

(** The prediction already made for [(name, p)], as the source selects
    it: the first matching row of the running set. *)
Definition lookup (future_preds : list forecast_row) (name : string) (p : period)
  : option Q :=
  match filter (fun e => String.eqb (f_Nama_Item e) name
                         && (f_periode e =? p)%Z) future_preds with
  | [] => None
  | e :: _ => Some (prediksi_jumlah e)
  end.

(** The lag features of step [i] for a seed row.  [None]: the frame
    built from an empty running set has no column to select, and the
    selection raises. *)
Definition lag_features (i : Z) (row : feature_row)
    (future_preds : list forecast_row) : option (num * num * num) :=
  let next_period := add_months (periode row) i in
  if (i =? 1)%Z then Some (total_jumlah row, lag_1 row, lag_2 row)
  else
    match future_preds with
    | [] => None
    | _ :: _ =>
        match lookup future_preds (Nama_Item row) (add_months next_period (-1)) with
        | Some p1 =>
            let l2 :=
              if (2 <=? i)%Z then
                match lookup future_preds (Nama_Item row)
                             (add_months next_period (-2)) with
                | Some p2 => Num p2
                | None => lag_1 row
                end
              else lag_1 row in
            let l3 :=
              if (3 <=? i)%Z then
                match lookup future_preds (Nama_Item row)
                             (add_months next_period (-3)) with
                | Some p3 => Num p3
                | None => lag_2 row
                end
              else lag_2 row in
            Some (Num p1, l2, l3)
        | None => Some (total_jumlah row, lag_1 row, lag_2 row)
        end
    end.

(** [features_input] of step [i]. *)
Definition features_input (i : Z) (row : feature_row) (lags : num * num * num)
  : feature_vector :=
  let '(l1, l2, l3) := lags in
  let next_period := add_months (periode row) i in
  let month := period_month next_period in
  {| x_Tahun := of_Z (period_year next_period);
     x_Bulan := of_Z month;
     x_quarter := of_Z ((month - 1) / 3 + 1);
     x_is_start_year := flag (month =? 1)%Z;
     x_is_end_year := flag (month =? 12)%Z;
     x_lag_1 := l1;
     x_lag_2 := l2;
     x_lag_3 := l3;
     x_ma_3 := ndiv (nadd (nadd l1 l2) l3) (Num 3);
     x_ma_6 := if isna (ma_6 row) then Num 0 else ma_6 row;
     x_diff_1 := nsub l1 l2 |}.

(** The feature vector of step [i] for a seed row, when one is built. *)
Definition step_features (i : Z) (row : feature_row)
    (future_preds : list forecast_row) : option feature_vector :=
  match lag_features i row future_preds with
  | Some lags => Some (features_input i row lags)
  | None => None
  end.

(** The body of the inner [try]: the row appended to the running set,
    or [None] when it raises and the row is skipped. *)
Definition predict_row (std_pred : num) (model : Model) (i : Z)
    (row : feature_row) (future_preds : list forecast_row)
  : option forecast_row :=
  match step_features i row future_preds with
  | None => None
  | Some x =>
      match model [x] with
      | Some (raw :: _) =>
          let pred := Qpy_max raw 0 in
          Some {| f_Nama_Item := Nama_Item row;
                  f_periode := add_months (periode row) i;
                  prediksi_jumlah := pred;
                  CI_lower := py_max (nsub (Num pred) (nmul (Num 1.96) std_pred))
                                     (Num 0);
                  CI_upper := nadd (Num pred) (nmul (Num 1.96) std_pred) |}
      | Some [] => None
      | None => None
      end
  end.

(** One pass of the loop body, for the pair [(i, row)]. *)
Definition rollout_step (std_pred : num) (model : Model)
    (future_preds : list forecast_row) (item : Z * feature_row)
  : list forecast_row :=
  match predict_row std_pred model (fst item) (snd item) future_preds with
  | Some e => future_preds ++ [e]
  | None => future_preds
  end.

(** [range(1, months + 1)]. *)
Definition steps (months : Z) : list Z :=
  map Z.of_nat (seq 1 (Z.to_nat months)).

(** The two nested loops. *)
Definition rollout (std_pred : num) (model : Model) (months : Z)
    (seeds : list feature_row) : list forecast_row :=
  fold_left
    (fun future_preds i =>
       fold_left (fun future_preds row =>
                    rollout_step std_pred model future_preds (i, row))
                 seeds future_preds)
    (steps months) [].

(** The pairs [(i, row)] in the order the loops visit them, and the
    running set after a run of them. *)
Definition work (months : Z) (seeds : list feature_row)
  : list (Z * feature_row) :=
  flat_map (fun i => map (pair i) seeds) (steps months).

Definition run (std_pred : num) (model : Model)
    (items : list (Z * feature_row)) : list forecast_row :=
  fold_left (rollout_step std_pred model) items [].

Definition by_forecast_key (a b : forecast_row) : bool :=
  key_leb (f_key a) (f_key b).

Section PredictFuture.
Context {L : Library}.

Definition predict_future (df : option (list feature_row))
    (model : option Model) (months : Z) : outcome :=
  match df, model with
  | Some df, Some model =>
      if ((months <=? 0) || (12 <? months))%Z then Failed MonthsOutOfRange
      else
        let seeds := last_data df in
        let s := std_pred df model in
        match rollout s model months seeds with
        | [] => Failed NoPredictions
        | future_preds =>
            Forecast (sort_values by_forecast_key future_preds)
        end
  | _, _ => Failed DataOrModelUnavailable
  end.
End PredictFuture.

(* ================================================================= *)
(** * Loading the data file *)

(** What [pd.read_csv] does with the file: it raises, or yields a
    table. *)
Inductive csv_read : Type :=
| FileNotFound
| EmptyData
| ParserError
| OtherReadError
| Loaded (df : DataFrame).

Section LoadData.
Context {L : Library}.

(** [load_data]: the table is validated (which coerces its numeric
    columns in place) and then handed to [prepare_features]; every
    exception of the read ends in [return None]. *)
Definition load_data (file : csv_read) : option (list feature_row) :=
  match file with
  | Loaded df =>
      let (validation, df) := validate_dataframe df in
      if negb (is_valid validation) then None
      else prepare_features df
  | FileNotFound | EmptyData | ParserError | OtherReadError => None
  end.
End LoadData.

(* ================================================================= *)
(** * The dashboard's session *)

(** The keys of [st.session_state] the dashboard writes.  [uploaded_df]
    is [None] while the key is absent and [Some None] when it holds
    [None]. *)
Record session : Type := {
  uploaded_df : option (option (list feature_row));
  data_source : option string;
  dashboard_loaded : bool
}.

Section Dashboard.
Context {L : Library}.

(** The upload block of [Dashboard.py]: [None] is no uploaded file. *)
Definition process_upload (uploaded_file : option csv_read) (st : session)
  : session :=
  match uploaded_file with
  | Some (Loaded df_uploaded) =>
      let (validation, df_uploaded) := validate_dataframe df_uploaded in
      if is_valid validation then
        match prepare_features df_uploaded with
        | Some processed_df =>
            {| uploaded_df := Some (Some processed_df);
               data_source := Some "uploaded"%string;
               dashboard_loaded := false |}
        | None => st
        end
      else st
  | Some (FileNotFound | EmptyData | ParserError | OtherReadError) => st
  | None => st
  end.

(** The default data is loaded only while the key is absent. *)
Definition ensure_data (data_csv : csv_read) (st : session) : session :=
  match uploaded_df st with
  | None =>
      {| uploaded_df := Some (load_data data_csv);
         data_source := Some "default"%string;
         dashboard_loaded := dashboard_loaded st |}
  | Some _ => st
  end.

(** One run of the script up to the point where the data is used. *)
Definition dashboard_data (uploaded_file : option csv_read)
    (data_csv : csv_read) (st : session) : session :=
  ensure_data data_csv (process_upload uploaded_file st).
End Dashboard.

(** [nle a b] is [a <= b]; false when NaN is involved. *)
Definition nle (a b : num) : bool :=
  match a, b with
  | Num x, Num y => Qle_bool x y
  | _, _ => false
  end.

(** The lines of the dashboard's validation summary. *)
Inductive status : Type :=
| DataNotEmpty
| DataEmpty
| ColumnsAvailable
| YearRangeValid
| YearRangeSuspect
| MonthRangeValid
| MonthRangeInvalid
| NegativeSalesPresent
| SalesAllPositive.

(** [validation_status] of [Dashboard.py], on the processed table (which
    has the four required columns by construction). *)
Definition validation_status (df : list feature_row) : list status :=
  [match df with [] => DataEmpty | _ :: _ => DataNotEmpty end]
  ++ [ColumnsAvailable]
  ++ [if nle (Num 1900) (series_min (map Tahun df))
         && nle (series_max (map Tahun df)) (Num 2100)
      then YearRangeValid else YearRangeSuspect]
  ++ [if nle (Num 1) (series_min (map Bulan df))
         && nle (series_max (map Bulan df)) (Num 12)
      then MonthRangeValid else MonthRangeInvalid]
  ++ [if existsb (fun x => nlt x (Num 0)) (map total_jumlah df)
      then NegativeSalesPresent else SalesAllPositive].

(* ================================================================= *)
(** * Stock recommendation *)

(** [Series.round()]: to the nearest integer, halves to the even one. *)
Definition round_half_even (q : Q) : Z :=
  let f := Qfloor q in
  match Qcompare (q - inject_Z f) (1 # 2) with
  | Lt => f
  | Gt => (f + 1)%Z
  | Eq => if Z.even f then f else (f + 1)%Z
  end.

(** [Series.clip(lower=lo)]. *)
Definition clip_lower (lo x : Q) : Q := if Qlt_bool x lo then lo else x.

Record stock_row : Type := {
  s_Nama_Item : string;
  s_periode : period;
  s_prediksi_jumlah : Q;
  stok_saat_ini : Z;
  rekomendasi_stok : Z;
  safety_stock : Z
}.

Definition stock_row_of (stok : Z) (safety_factor : Q) (r : forecast_row)
  : stock_row :=
  {| s_Nama_Item := f_Nama_Item r;
     s_periode := f_periode r;
     s_prediksi_jumlah := prediksi_jumlah r;
     stok_saat_ini := stok;
     rekomendasi_stok :=
       round_half_even
         (clip_lower 0 (prediksi_jumlah r * safety_factor - inject_Z stok));
     safety_stock :=
       round_half_even (prediksi_jumlah r * (safety_factor - 1)) |}.

(** The recommendation table of [3_Rekomendasi_Stok.py] for the selected
    item, the stock entered and the factor of the slider. *)
Definition recommend (future_df : list forecast_row) (selected_item : string)
    (stok : Z) (safety_factor : Q) : list stock_row :=
  map (stock_row_of stok safety_factor)
      (filter (fun r => String.eqb (f_Nama_Item r) selected_item) future_df).

Definition total_rekomendasi (rows : list stock_row) : Z :=
  fold_right (fun r acc => (rekomendasi_stok r + acc)%Z) 0%Z rows.

(** The order of the feature table, on its rows. *)
Definition by_row_key (a b : feature_row) : bool :=
  key_leb (row_key a) (row_key b).

(** The item and the target month of a pair of the rollout. *)
Definition key_of_item (item : Z * feature_row) : string * period :=
  (Nama_Item (snd item), add_months (periode (snd item)) (fst item)).

(** The three numeric input cells of a feature row, and what [fillna]
    makes of those of an input row. *)
Definition cells_of_row (r : feature_row) : num * num * num :=
  (Tahun r, Bulan r, total_jumlah r).

Definition cells_of_record (r : raw_row) : num * num * num :=
  (fill0 (to_numeric (r_Tahun r)), fill0 (to_numeric (r_Bulan r)),
   fill0 (to_numeric (r_total_jumlah r))).

(* ================================================================= *)
(** * A reference library and sample data *)

Definition is_integer (q : Q) : bool := Qeq_bool q (inject_Z (Qfloor q)).

(** Dates from a whole year and a whole month between 1 and 12. *)
Definition calendar_to_datetime (y m : num) : option Z :=
  match y, m with
  | Num y, Num m =>
      if is_integer y && is_integer m && Qle_bool 1 m && Qle_bool m 12
      then Some (12 * Qfloor y + (Qfloor m - 1))%Z
      else None
  | _, _ => None
  end.

(** A square root that is exact on squares of rationals. *)
Definition exact_sqrt (q : Q) : Q :=
  let r := Qred q in Z.sqrt (Qnum r) # Pos.sqrt (Qden r).

Definition reference_library : Library :=
  {| to_datetime := calendar_to_datetime; sqrt := exact_sqrt |}.

Definition sale (year month : Z) (item : string) (quantity : Z) : raw_row :=
  {| r_Tahun := CNum (inject_Z year);
     r_Bulan := CNum (inject_Z month);
     r_Nama_Item := item;
     r_total_jumlah := CNum (inject_Z quantity) |}.

Definition table (rows : list raw_row) : DataFrame :=
  {| columns := required_cols; records := rows |}.

(** A table without the quantity column. *)
Definition df_no_quantity : DataFrame :=
  {| columns := ["Tahun"; "Bulan"; "Nama Item"]%string;
     records := [sale 2024 1 "Aqua" 10] |}.

(** A table with an implausible year, a negative quantity and an
    unreadable quantity. *)
Definition df_advisory : DataFrame :=
  table [ sale 1800 1 "Aqua" 10;
          sale 2024 2 "Aqua" (-5);
          {| r_Tahun := CNum 2024; r_Bulan := CNum 3;
             r_Nama_Item := "Aqua"; r_total_jumlah := CText "n/a" |} ].

(** A table whose months are all unreadable. *)
Definition df_text_months : DataFrame :=
  table [ {| r_Tahun := CNum 2024; r_Bulan := CText "Jan";
             r_Nama_Item := "Aqua"; r_total_jumlah := CNum 10 |};
          {| r_Tahun := CNum 2024; r_Bulan := CText "Feb";
             r_Nama_Item := "Aqua"; r_total_jumlah := CNum 20 |} ].

(** Two items; the first has two rows for January 2024. *)
Definition df_two_items : DataFrame :=
  table [ sale 2024 2 "Aqua" 20;
          sale 2024 1 "Aqua" 10;
          sale 2024 1 "Vit" 7;
          sale 2024 1 "Aqua" 11;
          sale 2024 3 "Aqua" 30 ].

Definition features_of (df : DataFrame) : list feature_row :=
  match @prepare_features reference_library df with
  | Some ft => ft
  | None => []
  end.

Definition ft_two_items : list feature_row :=
  Eval vm_compute in features_of df_two_items.

Definition blank_row : feature_row :=
  {| Tahun := NaN; Bulan := NaN; Nama_Item := ""; total_jumlah := NaN;
     periode := 0%Z; quarter := NaN; is_start_year := NaN;
     is_end_year := NaN; lag_1 := NaN; lag_2 := NaN; lag_3 := NaN;
     ma_3 := NaN; ma_6 := NaN; diff_1 := NaN |}.

(** A model that answers [c] for every row. *)
Definition constant_model (c : Q) : Model :=
  fun xs => Some (map (fun _ => c) xs).

(** A model that raises when a row it is given has this target month
    and this first lag, and answers [c] otherwise. *)
Definition fussy_model (month : Z) (lag : Q) (c : Q) : Model :=
  fun xs =>
    if existsb (fun x => neqb (x_Bulan x) (of_Z month)
                         && neqb (x_lag_1 x) (Num lag)) xs
    then None
    else Some (map (fun _ => c) xs).

(** One item with quantities 1, 2, 3 in January to March 2024. *)
Definition df_three_months : DataFrame :=
  table [ sale 2024 1 "Aqua" 1; sale 2024 2 "Aqua" 2; sale 2024 3 "Aqua" 3 ].

Definition ft_three_months : list feature_row :=
  Eval vm_compute in features_of df_three_months.

(** One item with a single row. *)
Definition df_single : DataFrame := table [ sale 2024 1 "Aqua" 10 ].

Definition ft_single : list feature_row :=
  Eval vm_compute in features_of df_single.

Definition seed_single : feature_row :=
  Eval vm_compute in nth 0 ft_single blank_row.

(** Two items; the seed of the first has quantity 100 and lags 90, 80. *)
Definition df_rollout : DataFrame :=
  table [ sale 2024 1 "Aqua" 80; sale 2024 2 "Aqua" 90;
          sale 2024 3 "Aqua" 100; sale 2024 3 "Vit" 50 ].

Definition ft_rollout : list feature_row :=
  Eval vm_compute in features_of df_rollout.

Definition seed_aqua : feature_row :=
  Eval vm_compute in nth 2 ft_rollout blank_row.

Definition seed_vit : feature_row :=
  Eval vm_compute in nth 3 ft_rollout blank_row.

(** A prediction of 7 for the first item in April 2024. *)
Definition aqua_april : forecast_row :=
  {| f_Nama_Item := "Aqua"; f_periode := 24291%Z; prediksi_jumlah := 7;
     CI_lower := Num 0; CI_upper := Num 14 |}.

(** A model that raises for the first item at its first step (target
    month April, first lag 100) and answers 7 otherwise, and the running
    set it leaves after the first step of a rollout over [ft_rollout]. *)
Definition rollout_model : Model := fussy_model 4 100 7.

Definition preds_step_1 : list forecast_row :=
  run (@std_pred reference_library ft_rollout rollout_model) rollout_model
      [(1%Z, seed_aqua); (1%Z, seed_vit)].

(** The forecast of two months for [ft_three_months] by a model that
    always answers 3. *)
Definition forecast_of (o : outcome) : list forecast_row :=
  match o with Forecast t => t | Failed _ => [] end.

Definition fc_three_months : list forecast_row :=
  Eval vm_compute in
    forecast_of (@predict_future reference_library (Some ft_three_months)
                   (Some (constant_model 3)) 2).

(** A model that raises on the history of [ft_three_months] (its
    February row has first lag 1) and answers 5 on any other frame. *)
Definition history_shy_model : Model := fussy_model 2 1 5.

Definition fc_history_shy : list forecast_row :=
  Eval vm_compute in
    forecast_of (@predict_future reference_library (Some ft_three_months)
                   (Some history_shy_model) 1).

(** A table whose first row has no year. *)
Definition df_missing_year : DataFrame :=
  table [ {| r_Tahun := CNull; r_Bulan := CNum 1;
             r_Nama_Item := "Aqua"; r_total_jumlah := CNum 10 |};
          sale 2024 2 "Aqua" 20 ].

(* ================================================================= *)
(** * Properties of the numeric layer *)

Lemma Qlt_bool_iff (x y : Q) : Qlt_bool x y = true <-> x < y.
Proof.
  unfold Qlt_bool. rewrite negb_true_iff. split; intro H.
  - apply Qnot_le_lt. intro Hle. apply Qle_bool_iff in Hle. congruence.
  - destruct (Qle_bool y x) eqn:E; [|reflexivity].
    apply Qle_bool_iff in E. exfalso. apply (Qlt_not_le _ _ H E).
Qed.

Lemma Qlt_bool_false (x y : Q) : Qlt_bool x y = false <-> y <= x.
Proof.
  unfold Qlt_bool. rewrite negb_false_iff. apply Qle_bool_iff.
Qed.

Lemma nlt_Num (x y : Q) : nlt (Num x) (Num y) = true <-> x < y.
Proof. apply Qlt_bool_iff. Qed.

Lemma series_min_lt (l : list num) (c : Q) :
  nlt (series_min l) (Num c) = true <-> exists q, In (Num q) l /\ q < c.
Proof.
  induction l as [|x t IH]; simpl.
  - split; [discriminate | intros (q & [] & _)].
  - destruct x as [a|].
    + destruct (series_min t) as [b|] eqn:E.
      * unfold nlt in IH |- *. rewrite Qlt_bool_iff. rewrite Qlt_bool_iff in IH.
        destruct (Qle_bool a b) eqn:Hab.
        -- apply Qle_bool_iff in Hab. split.
           ++ intro H. exists a. split; [now left | exact H].
           ++ intros (q & [Hq | Hq] & Hlt).
              ** inversion Hq; subst. exact Hlt.
              ** assert (b < c) by (apply IH; eauto). lra.
        -- assert (b < a).
           { apply Qnot_le_lt. intro Hle. apply Qle_bool_iff in Hle. congruence. }
           split.
           ++ intro H0. apply IH in H0. destruct H0 as (q & Hq & Hlt).
              exists q. split; [now right | exact Hlt].
           ++ intros (q & [Hq | Hq] & Hlt).
              ** inversion Hq; subst. lra.
              ** apply IH; eauto.
      * unfold nlt. rewrite Qlt_bool_iff. split.
        -- intro H. exists a. split; [now left | exact H].
        -- intros (q & [Hq | Hq] & Hlt).
           ++ inversion Hq; subst. exact Hlt.
           ++ simpl in IH. assert (false = true) by (apply IH; eauto).
              discriminate.
    + rewrite IH. split.
      * intros (q & Hq & Hlt). exists q. split; [now right | exact Hlt].
      * intros (q & [Hq | Hq] & Hlt); [discriminate | eauto].
Qed.

Lemma series_max_gt (l : list num) (c : Q) :
  nlt (Num c) (series_max l) = true <-> exists q, In (Num q) l /\ c < q.
Proof.
  induction l as [|x t IH]; simpl.
  - split; [discriminate | intros (q & [] & _)].
  - destruct x as [a|].
    + destruct (series_max t) as [b|] eqn:E.
      * unfold nlt in IH |- *. rewrite Qlt_bool_iff. rewrite Qlt_bool_iff in IH.
        destruct (Qle_bool b a) eqn:Hab.
        -- apply Qle_bool_iff in Hab. split.
           ++ intro H. exists a. split; [now left | exact H].
           ++ intros (q & [Hq | Hq] & Hlt).
              ** inversion Hq; subst. exact Hlt.
              ** assert (c < b) by (apply IH; eauto). lra.
        -- assert (a < b).
           { apply Qnot_le_lt. intro Hle. apply Qle_bool_iff in Hle. congruence. }
           split.
           ++ intro H0. apply IH in H0. destruct H0 as (q & Hq & Hlt).
              exists q. split; [now right | exact Hlt].
           ++ intros (q & [Hq | Hq] & Hlt).
              ** inversion Hq; subst. lra.
              ** apply IH; eauto.
      * unfold nlt. rewrite Qlt_bool_iff. split.
        -- intro H. exists a. split; [now left | exact H].
        -- intros (q & [Hq | Hq] & Hlt).
           ++ inversion Hq; subst. exact Hlt.
           ++ simpl in IH. assert (false = true) by (apply IH; eauto).
              discriminate.
    + rewrite IH. split.
      * intros (q & Hq & Hlt). exists q. split; [now right | exact Hlt].
      * intros (q & [Hq | Hq] & Hlt); [discriminate | eauto].
Qed.

(* ================================================================= *)
(** * Properties of validation *)

Lemma to_numeric_coerce (c : cell) : to_numeric (coerce_cell c) = to_numeric c.
Proof. destruct c; reflexivity. Qed.

Lemma col_Bulan_coerce (df : DataFrame) : col_Bulan (coerce df) = col_Bulan df.
Proof.
  unfold col_Bulan, coerce; simpl. rewrite map_map.
  apply map_ext; intro r. apply to_numeric_coerce.
Qed.

Lemma col_Tahun_coerce (df : DataFrame) : col_Tahun (coerce df) = col_Tahun df.
Proof.
  unfold col_Tahun, coerce; simpl. rewrite map_map.
  apply map_ext; intro r. apply to_numeric_coerce.
Qed.

Lemma col_total_jumlah_coerce (df : DataFrame) :
  col_total_jumlah (coerce df) = col_total_jumlah df.
Proof.
  unfold col_total_jumlah, coerce; simpl. rewrite map_map.
  apply map_ext; intro r. apply to_numeric_coerce.
Qed.

Lemma empty_coerce (df : DataFrame) : empty (coerce df) = empty df.
Proof. unfold empty, coerce; simpl. now destruct (records df). Qed.

(** The month check fires exactly when some month that reads as a number
    lies outside [1, 12]. *)
Lemma month_out_of_range_iff (df : DataFrame) :
  month_out_of_range (coerce df) = true <->
  exists r q, In r (records df) /\ to_numeric (r_Bulan r) = Num q
              /\ (q < 1 \/ 12 < q).
Proof.
  unfold month_out_of_range. rewrite col_Bulan_coerce, orb_true_iff.
  rewrite series_min_lt, series_max_gt. unfold col_Bulan.
  split.
  - intros [(q & Hin & Hq) | (q & Hin & Hq)];
      apply in_map_iff in Hin; destruct Hin as (r & Hr & Hin);
      exists r, q; auto.
  - intros (r & q & Hin & Hr & [Hq | Hq]); [left | right];
      exists q; (split; [|exact Hq]); apply in_map_iff; eauto.
Qed.

Lemma year_out_of_range_iff (df : DataFrame) :
  year_out_of_range (coerce df) = true <->
  exists r q, In r (records df) /\ to_numeric (r_Tahun r) = Num q
              /\ (q < 1900 \/ 2100 < q).
Proof.
  unfold year_out_of_range. rewrite col_Tahun_coerce, orb_true_iff.
  rewrite series_min_lt, series_max_gt. unfold col_Tahun.
  split.
  - intros [(q & Hin & Hq) | (q & Hin & Hq)];
      apply in_map_iff in Hin; destruct Hin as (r & Hr & Hin);
      exists r, q; auto.
  - intros (r & q & Hin & Hr & [Hq | Hq]); [left | right];
      exists q; (split; [|exact Hq]); apply in_map_iff; eauto.
Qed.

Lemma any_negative_iff (df : DataFrame) :
  any_negative (coerce df) = true <->
  exists r q, In r (records df) /\ to_numeric (r_total_jumlah r) = Num q /\ q < 0.
Proof.
  unfold any_negative. rewrite col_total_jumlah_coerce, existsb_exists.
  unfold col_total_jumlah. split.
  - intros (x & Hin & Hx). apply in_map_iff in Hin.
    destruct Hin as (r & Hr & Hin). destruct x as [q|]; [|discriminate].
    apply nlt_Num in Hx. exists r, q; auto.
  - intros (r & q & Hin & Hr & Hq). exists (Num q). split.
    + apply in_map_iff; eauto.
    + now apply nlt_Num.
Qed.

Lemma missing_data_pos_iff (df : DataFrame) :
  (0 < missing_data (coerce df))%nat <->
  exists r, In r (records df)
            /\ (to_numeric (r_Tahun r) = NaN \/ to_numeric (r_Bulan r) = NaN
                \/ to_numeric (r_total_jumlah r) = NaN).
Proof.
  unfold missing_data, coerce; simpl.
  induction (records df) as [|r t IH]; simpl.
  - split; [lia | intros (r & [] & _)].
  - split.
    + intro H.
      destruct (Nat.eq_dec (null_count_row (coerce_row r)) 0) as [E|E].
      * rewrite E in H. apply IH in H. destruct H as (r' & Hin & Hr').
        exists r'. auto.
      * exists r. split; [now left|].
        unfold null_count_row, coerce_row in E; simpl in E.
        destruct (r_Tahun r), (r_Bulan r), (r_total_jumlah r);
          simpl in *; auto; contradiction.
    + intros (r' & [-> | Hin] & Hr').
      * assert (0 < null_count_row (coerce_row r'))%nat; [|lia].
        unfold null_count_row, coerce_row; simpl.
        destruct (r_Tahun r'), (r_Bulan r'), (r_total_jumlah r');
          simpl in *; try lia; destruct Hr' as [?|[?|?]]; discriminate.
      * assert (0 < fold_right (fun r n => (null_count_row r + n)%nat) 0%nat
                                (map coerce_row t))%nat by (apply IH; eauto).
        lia.
Qed.

Lemma missing_cols_nil_iff (df : DataFrame) :
  filter (fun c => negb (has_column df c)) required_cols = [] <->
  forall c, In c required_cols -> has_column df c = true.
Proof.
  split.
  - intros H c Hc. destruct (has_column df c) eqn:E; [reflexivity|].
    assert (In c (filter (fun c => negb (has_column df c)) required_cols)).
    { apply filter_In. split; [exact Hc | now rewrite E]. }
    rewrite H in H0. destruct H0.
  - intro H. destruct (filter _ required_cols) as [|c l] eqn:E; [reflexivity|].
    assert (Hin : In c (filter (fun c => negb (has_column df c)) required_cols))
      by (rewrite E; now left).
    apply filter_In in Hin. destruct Hin as [Hc Hn].
    rewrite (H c Hc) in Hn. discriminate.
Qed.

Section ValidationStep.
Context {L : Library}.

Lemma prepare_features_missing_column (df : DataFrame) (c : string) :
  In c required_cols -> has_column df c = false -> prepare_features df = None.
Proof.
  intros Hc Hn. unfold prepare_features, validate_dataframe.
  destruct (filter _ required_cols) as [|c' l] eqn:E; [|reflexivity].
  rewrite missing_cols_nil_iff in E. rewrite (E c Hc) in Hn. discriminate.
Qed.

Lemma prepare_features_bad_month (df : DataFrame) :
  month_out_of_range (coerce df) = true -> prepare_features df = None.
Proof.
  intro H. unfold prepare_features, validate_dataframe.
  destruct (filter _ required_cols); [|reflexivity].
  simpl. now rewrite H.
Qed.

Lemma prepare_features_empty (df : DataFrame) :
  records df = [] -> prepare_features df = None.
Proof.
  intro H. unfold prepare_features, validate_dataframe.
  destruct (filter _ required_cols); [|reflexivity].
  simpl. rewrite empty_coerce. unfold empty. rewrite H.
  now rewrite andb_false_r.
Qed.

(** A table that passes validation goes on to the feature steps, with
    its numeric columns coerced. *)
Lemma prepare_features_valid (df : DataFrame) (ft : list feature_row) :
  prepare_features df = Some ft ->
  (forall c, In c required_cols -> has_column df c = true)
  /\ month_out_of_range (coerce df) = false
  /\ records df <> []
  /\ build_features (coerce df) = Some ft.
Proof.
  unfold prepare_features, validate_dataframe.
  destruct (filter _ required_cols) as [|c l] eqn:E; [|discriminate].
  simpl. rewrite empty_coerce.
  destruct (month_out_of_range (coerce df)); [discriminate|].
  unfold empty. destruct (records df) eqn:R; [discriminate|].
  simpl. intro H. split; [now apply missing_cols_nil_iff|].
  repeat split; [discriminate | exact H].
Qed.

Lemma prepare_features_passes (df : DataFrame) :
  (forall c, In c required_cols -> has_column df c = true) ->
  month_out_of_range (coerce df) = false ->
  records df <> [] ->
  validate_dataframe df =
    ({| is_valid := true;
        errors := [];
        warnings :=
          (if (0 <? missing_data (coerce df))%nat
           then [MissingValues (missing_data (coerce df))] else [])
          ++ (if year_out_of_range (coerce df) then [YearOutOfRange] else [])
          ++ (if any_negative (coerce df) then [NegativeSales] else []) |},
     coerce df)
  /\ prepare_features df = build_features (coerce df).
Proof.
  intros Hc Hm Hr. unfold prepare_features, validate_dataframe.
  apply missing_cols_nil_iff in Hc. rewrite Hc. simpl.
  rewrite empty_coerce, Hm. unfold empty.
  destruct (records df); [contradiction|]. simpl. split; reflexivity.
Qed.
End ValidationStep.

Lemma missing_data_all_months (df : DataFrame) :
  (forall r, In r (records df) -> to_numeric (r_Bulan r) = NaN) ->
  (List.length (records df) <= missing_data (coerce df))%nat.
Proof.
  unfold missing_data, coerce; simpl.
  induction (records df) as [|r t IH]; simpl; intro H; [lia|].
  assert (1 <= null_count_row (coerce_row r))%nat.
  { unfold null_count_row, coerce_row; simpl.
    assert (Hr : to_numeric (r_Bulan r) = NaN) by (apply H; now left).
    destruct (r_Bulan r); simpl in *; try discriminate;
      destruct (isnull (coerce_cell (r_Tahun r)));
      destruct (isnull (coerce_cell (r_total_jumlah r))); lia. }
  assert (List.length t
          <= fold_right (fun r n => (null_count_row r + n)%nat) 0%nat
                        (map coerce_row t))%nat
    by (apply IH; intros; apply H; now right).
  lia.
Qed.

Lemma required_columns_of_table (rows : list raw_row) (c : string) :
  In c required_cols -> has_column (table rows) c = true.
Proof.
  intros [<-|[<-|[<-|[<-|[]]]]]; reflexivity.
Qed.

(** C10. A table with the four required columns and at least one row,
    all of whose months fail numeric parsing, is judged valid: the month
    check compares NaN and does not fire, no error is reported, and the
    missing-values warning is emitted (one missing value per row at
    least), followed only by the year and quantity warnings that the
    other columns call for. *)
Theorem unparsed_months_pass (df : DataFrame) :
  (forall c, In c required_cols -> has_column df c = true) ->
  records df <> [] ->
  (forall r, In r (records df) -> to_numeric (r_Bulan r) = NaN) ->
  month_out_of_range (coerce df) = false
  /\ exists n,
      (List.length (records df) <= n)%nat
      /\ validate_dataframe df =
           ({| is_valid := true;
               errors := [];
               warnings :=
                 MissingValues n
                 :: (if year_out_of_range (coerce df) then [YearOutOfRange]
                     else [])
                 ++ (if any_negative (coerce df) then [NegativeSales]
                     else []) |},
            coerce df).
Proof.
  intros Hc Hr Hm.
  assert (Hmonth : month_out_of_range (coerce df) = false).
  { destruct (month_out_of_range (coerce df)) eqn:E; [|reflexivity].
    apply month_out_of_range_iff in E.
    destruct E as (r & q & Hin & Hq & _).
    rewrite (Hm r Hin) in Hq. discriminate. }
  split; [exact Hmonth|].
  exists (missing_data (coerce df)).
  pose proof (missing_data_all_months df Hm) as Hlen.
  split; [exact Hlen|].
  unfold validate_dataframe.
  apply missing_cols_nil_iff in Hc. rewrite Hc. simpl.
  rewrite empty_coerce, Hmonth. unfold empty.
  destruct (records df) as [|r t] eqn:R; [contradiction|].
  simpl in Hlen.
  assert (E : (0 <? missing_data (coerce df))%nat = true)
    by (apply Nat.ltb_lt; lia).
  rewrite E. reflexivity.
Qed.

Lemma unparsed_months_pass_witness :
  is_valid (fst (validate_dataframe df_text_months)) = true
  /\ errors (fst (validate_dataframe df_text_months)) = [].
Proof.
  destruct (unparsed_months_pass df_text_months) as (_ & n & _ & Hv).
  - intros c [<-|[<-|[<-|[<-|[]]]]]; reflexivity.
  - discriminate.
  - intros r [<-|[<-|[]]]; reflexivity.
  - rewrite Hv. split; reflexivity.
Defined.

(* ================================================================= *)
(** * The stable sort *)

Section SortFacts.
Variable A : Type.
Variable leb : A -> A -> bool.

Lemma In_insert (x y : A) (l : list A) :
  In y (insert leb x l) <-> y = x \/ In y l.
Proof.
  induction l as [|z t IH]; simpl.
  - intuition.
  - destruct (leb x z); simpl; [intuition|].
    rewrite IH. intuition.
Qed.

Lemma In_sort_values (y : A) (l : list A) :
  In y (sort_values leb l) <-> In y l.
Proof.
  induction l as [|x t IH]; simpl; [reflexivity|].
  rewrite In_insert, IH. intuition.
Qed.

Lemma length_insert (x : A) (l : list A) :
  List.length (insert leb x l) = S (List.length l).
Proof.
  induction l as [|z t IH]; simpl; [reflexivity|].
  destruct (leb x z); simpl; congruence.
Qed.

Lemma length_sort_values (l : list A) :
  List.length (sort_values leb l) = List.length l.
Proof.
  induction l as [|x t IH]; simpl; [reflexivity|].
  rewrite length_insert. congruence.
Qed.

(** Rows that the predicate selects and that the order ranks with
    each other keep their relative order. *)
Section Stability.
Variable p : A -> bool.
Hypothesis p_tied : forall x y, p x = true -> p y = true -> leb x y = true.

Lemma filter_insert_tied (x : A) (l : list A) :
  p x = true -> filter p (insert leb x l) = x :: filter p l.
Proof.
  intro Hx. induction l as [|y t IH]; simpl.
  - now rewrite Hx.
  - destruct (leb x y) eqn:E; simpl.
    + now rewrite Hx.
    + destruct (p y) eqn:Hy.
      * rewrite (p_tied x y Hx Hy) in E. discriminate.
      * exact IH.
Qed.

Lemma filter_insert_skip (x : A) (l : list A) :
  p x = false -> filter p (insert leb x l) = filter p l.
Proof.
  intro Hx. induction l as [|y t IH]; simpl.
  - now rewrite Hx.
  - destruct (leb x y); simpl.
    + now rewrite Hx.
    + now rewrite IH.
Qed.

Lemma filter_sort_stable (l : list A) :
  filter p (sort_values leb l) = filter p l.
Proof.
  induction l as [|x t IH]; simpl; [reflexivity|].
  destruct (p x) eqn:Hx.
  - rewrite filter_insert_tied by exact Hx. now rewrite IH.
  - rewrite filter_insert_skip by exact Hx. exact IH.
Qed.
End Stability.

(** For a total preorder the result is sorted, and sorting commutes
    with selecting rows. *)
Section TotalPreorder.
Hypothesis leb_total : forall x y, leb x y = false -> leb y x = true.
Hypothesis leb_trans :
  forall x y z, leb x y = true -> leb y z = true -> leb x z = true.

Lemma insert_sorted (x : A) (l : list A) :
  sorted leb l -> sorted leb (insert leb x l).
Proof.
  induction 1 as [|y t Hy Ht IH]; simpl.
  - constructor; [intros ? []|constructor].
  - destruct (leb x y) eqn:E.
    + constructor; [|now constructor].
      intros z [<-|Hz]; [exact E|].
      apply leb_trans with y; auto.
    + constructor; [|exact IH].
      intros z Hz. apply In_insert in Hz. destruct Hz as [->|Hz]; auto.
Qed.

Lemma sort_values_sorted (l : list A) : sorted leb (sort_values leb l).
Proof.
  induction l as [|x t IH]; simpl; [constructor|].
  now apply insert_sorted.
Qed.

Lemma sorted_app_inv (l1 l2 : list A) (x : A) :
  sorted leb (l1 ++ x :: l2) -> forall y, In y l2 -> leb x y = true.
Proof.
  induction l1 as [|z t IH]; simpl; intros H y Hy.
  - inversion H; subst. auto.
  - inversion H; subst. now apply IH.
Qed.

Variable p : A -> bool.

Lemma filter_insert_keep (x : A) (l : list A) :
  sorted leb l -> p x = true ->
  filter p (insert leb x l) = insert leb x (filter p l).
Proof.
  intros Hs Hx. induction Hs as [|y t Hy Ht IH]; simpl.
  - now rewrite Hx.
  - destruct (leb x y) eqn:E; simpl.
    + rewrite Hx. destruct (p y) eqn:Py; simpl.
      * now rewrite E.
      * destruct (filter p t) as [|z u] eqn:F; simpl; [reflexivity|].
        assert (Hz : In z t).
        { assert (In z (filter p t)) by (rewrite F; now left).
          apply filter_In in H. tauto. }
        now rewrite (leb_trans x y z E (Hy z Hz)).
    + destruct (p y) eqn:Py; simpl.
      * now rewrite E, IH.
      * exact IH.
Qed.

Lemma filter_sort_values (l : list A) :
  filter p (sort_values leb l) = sort_values leb (filter p l).
Proof.
  induction l as [|x t IH]; simpl; [reflexivity|].
  destruct (p x) eqn:Hx; simpl.
  - rewrite filter_insert_keep; [now rewrite IH | apply sort_values_sorted
                                 | exact Hx].
  - rewrite <- IH. clear IH.
    induction (sort_values leb t) as [|y u IHu]; simpl.
    + now rewrite Hx.
    + destruct (leb x y); simpl; [now rewrite Hx|].
      now rewrite IHu.
Qed.
End TotalPreorder.
End SortFacts.

Arguments In_sort_values {A} leb y l.
Arguments filter_sort_stable {A} leb p _ l.
Arguments sort_values_sorted {A} leb _ _ l.
Arguments sorted_app_inv {A} leb l1 l2 x _ y _.
Arguments filter_sort_values {A} leb _ _ p l.

(* ================================================================= *)
(** * The order on (item, period) *)

Lemma ascii_compare_refl (a : ascii) : Ascii.compare a a = Eq.
Proof. apply N.compare_refl. Qed.

Lemma string_compare_refl (s : string) : String.compare s s = Eq.
Proof.
  induction s as [|a s IH]; simpl; [reflexivity|].
  now rewrite ascii_compare_refl.
Qed.

Lemma ascii_compare_lt_trans (a b c : ascii) :
  Ascii.compare a b = Lt -> Ascii.compare b c = Lt -> Ascii.compare a c = Lt.
Proof.
  unfold Ascii.compare. rewrite !N.compare_lt_iff. lia.
Qed.

Lemma string_compare_lt_trans (s1 s2 s3 : string) :
  String.compare s1 s2 = Lt -> String.compare s2 s3 = Lt ->
  String.compare s1 s3 = Lt.
Proof.
  revert s2 s3.
  induction s1 as [|a s1 IH]; intros [|b s2] [|c s3]; simpl;
    try discriminate; try reflexivity.
  destruct (Ascii.compare a b) eqn:Eab; try discriminate;
    destruct (Ascii.compare b c) eqn:Ebc; try discriminate; intros H1 H2.
  - apply Ascii.compare_eq_iff in Eab, Ebc. subst.
    rewrite ascii_compare_refl. now apply IH with s2.
  - apply Ascii.compare_eq_iff in Eab. subst. now rewrite Ebc.
  - apply Ascii.compare_eq_iff in Ebc. subst. now rewrite Eab.
  - now rewrite (ascii_compare_lt_trans a b c Eab Ebc).
Qed.

Lemma key_leb_total (a b : string * period) :
  key_leb a b = false -> key_leb b a = true.
Proof.
  unfold key_leb. rewrite (String.compare_antisym (fst b) (fst a)).
  destruct (String.compare (fst a) (fst b)) eqn:E; simpl;
    try discriminate; try reflexivity.
  intro H. apply Z.leb_gt in H. apply Z.leb_le. lia.
Qed.

Lemma key_leb_trans (a b c : string * period) :
  key_leb a b = true -> key_leb b c = true -> key_leb a c = true.
Proof.
  unfold key_leb.
  destruct (String.compare (fst a) (fst b)) eqn:Eab; try discriminate;
    destruct (String.compare (fst b) (fst c)) eqn:Ebc; try discriminate;
    intros H1 H2.
  - apply String.compare_eq_iff in Eab, Ebc. rewrite Eab, Ebc.
    rewrite string_compare_refl. apply Z.leb_le.
    apply Z.leb_le in H1, H2. lia.
  - apply String.compare_eq_iff in Eab. rewrite Eab. now rewrite Ebc.
  - apply String.compare_eq_iff in Ebc. rewrite <- Ebc. now rewrite Eab.
  - now rewrite (string_compare_lt_trans _ _ _ Eab Ebc).
Qed.

Lemma key_leb_same (a b : string * period) : a = b -> key_leb a b = true.
Proof.
  intros ->. unfold key_leb. rewrite string_compare_refl. apply Z.leb_refl.
Qed.

Lemma key_leb_same_item (a b : string * period) :
  fst a = fst b -> key_leb a b = true -> (snd a <= snd b)%Z.
Proof.
  unfold key_leb. intros ->. rewrite string_compare_refl. apply Z.leb_le.
Qed.

Lemma key_eqb_eq (a b : string * period) : key_eqb a b = true <-> a = b.
Proof.
  unfold key_eqb. rewrite andb_true_iff, String.eqb_eq, Z.eqb_eq.
  destruct a, b; simpl. split; [intros [-> ->]; reflexivity|].
  intro H; inversion H; auto.
Qed.

(* ================================================================= *)
(** * Properties of the feature builder *)

Lemma filter_map_swap {A B : Type} (f : A -> B) (p : B -> bool) (q : A -> bool)
    (l : list A) :
  (forall x, p (f x) = q x) -> filter p (map f l) = map f (filter q l).
Proof.
  intro H. induction l as [|x t IH]; simpl; [reflexivity|].
  rewrite H. destruct (q x); simpl; now rewrite IH.
Qed.

Lemma filter_filter_absorb {A : Type} (p q : A -> bool) (l : list A) :
  (forall x, p x = true -> q x = true) ->
  filter p (filter q l) = filter p l.
Proof.
  intro H. induction l as [|x t IH]; simpl; [reflexivity|].
  destruct (q x) eqn:Q; simpl.
  - now rewrite IH.
  - destruct (p x) eqn:P; [|exact IH].
    rewrite (H x P) in Q. discriminate.
Qed.

Lemma base_of_features (above rows : list period_row) :
  map base_of (map fillna (add_features above rows)) = map fill_base rows.
Proof.
  revert above. induction rows as [|r t IH]; intro above; simpl;
    [reflexivity|].
  now rewrite IH.
Qed.

Lemma names_of_features (above rows : list period_row) :
  map Nama_Item (map fillna (add_features above rows))
  = map p_Nama_Item rows.
Proof.
  revert above. induction rows as [|r t IH]; intro above; simpl;
    [reflexivity|].
  now rewrite IH.
Qed.

Lemma In_features (above rows : list period_row) (r : feature_row) :
  In r (map fillna (add_features above rows)) ->
  exists pr, In pr rows /\ Nama_Item r = p_Nama_Item pr
             /\ periode r = p_periode pr.
Proof.
  revert above. induction rows as [|x t IH]; intro above; simpl;
    [intros []|].
  intros [<- | H].
  - exists x. simpl. auto.
  - destruct (IH _ H) as (pr & Hin & Hn & Hp). exists pr. auto.
Qed.

(** The feature rows above a given one come from the input rows above
    it, and the given one is computed from those. *)
Lemma add_features_split (above rows : list period_row)
    (pre post : list feature_row) (fr : feature_row) :
  add_features above rows = pre ++ fr :: post ->
  exists l1 r l2,
    rows = l1 ++ r :: l2
    /\ pre = add_features above l1
    /\ fr = feature_row_of
              (group_history (p_Nama_Item r) (rev l1 ++ above)) r
    /\ post = add_features (r :: rev l1 ++ above) l2.
Proof.
  revert above pre. induction rows as [|x t IH]; intros above pre H.
  - destruct pre; discriminate.
  - simpl in H. destruct pre as [|y pre].
    + simpl in H. inversion H; subst.
      exists [], x, t. simpl. auto.
    + simpl in H. inversion H; subst.
      destruct (IH _ _ H2) as (l1 & r & l2 & -> & -> & -> & Hpost).
      exists (x :: l1), r, l2. simpl.
      rewrite <- !app_assoc. simpl. auto.
Qed.

Lemma group_history_none (name : string) (above : list period_row) :
  (forall r, In r above -> p_Nama_Item r <> name) ->
  group_history name above = [].
Proof.
  unfold group_history. induction above as [|x t IH]; simpl; intro H;
    [reflexivity|].
  destruct (String.eqb_spec (p_Nama_Item x) name) as [E|E].
  - exfalso. apply (H x); auto.
  - apply IH. intros r Hr. apply H. auto.
Qed.

(** The features of an item only look at the rows of that item. *)
Lemma group_history_filter (item name : string) (above : list period_row) :
  name = item ->
  group_history name
    (filter (fun r => String.eqb (p_Nama_Item r) item) above)
  = group_history name above.
Proof.
  intros ->. unfold group_history. f_equal.
  apply filter_filter_absorb. auto.
Qed.

Lemma filter_add_features (item : string) (above rows : list period_row) :
  filter (is_item item) (add_features above rows)
  = add_features
      (filter (fun r => String.eqb (p_Nama_Item r) item) above)
      (filter (fun r => String.eqb (p_Nama_Item r) item) rows).
Proof.
  revert above. induction rows as [|r t IH]; intro above; simpl;
    [reflexivity|].
  unfold is_item at 1. simpl.
  destruct (String.eqb_spec (p_Nama_Item r) item) as [E|E]; simpl.
  - rewrite group_history_filter by exact E. f_equal.
    rewrite IH. simpl.
    destruct (String.eqb_spec (p_Nama_Item r) item); [reflexivity|contradiction].
  - rewrite IH. simpl.
    destruct (String.eqb_spec (p_Nama_Item r) item); [contradiction|reflexivity].
Qed.

Lemma filter_fillna (item : string) (l : list feature_row) :
  filter (is_item item) (map fillna l) = map fillna (filter (is_item item) l).
Proof. apply filter_map_swap. reflexivity. Qed.

Lemma by_key_total (a b : period_row) : by_key a b = false -> by_key b a = true.
Proof. apply key_leb_total. Qed.

Lemma by_key_trans (a b c : period_row) :
  by_key a b = true -> by_key b c = true -> by_key a c = true.
Proof. apply key_leb_trans. Qed.

Section BuildFacts.
Context {L : Library}.

Lemma build_features_eq (df : DataFrame) (ft : list feature_row) :
  build_features df = Some ft ->
  exists rows,
    create_periode (records df) = Some rows
    /\ ft = map fillna (add_features [] (sort_values by_key rows)).
Proof.
  unfold build_features.
  destruct (create_periode (records df)) as [rows|]; [|discriminate].
  intro H. inversion H. exists rows. auto.
Qed.

Lemma create_periode_filter (f : string -> bool) (l : list raw_row)
    (rows : list period_row) :
  create_periode l = Some rows ->
  create_periode (filter (fun r => f (r_Nama_Item r)) l)
  = Some (filter (fun r => f (p_Nama_Item r)) rows).
Proof.
  revert rows. induction l as [|x t IH]; simpl; intros rows H.
  - inversion H. reflexivity.
  - destruct (with_periode x) as [px|] eqn:Ex; [|discriminate].
    destruct (create_periode t) as [pt|]; [|discriminate].
    inversion H; subst. simpl.
    assert (Hn : p_Nama_Item px = r_Nama_Item x).
    { unfold with_periode in Ex.
      destruct (to_datetime _ _); inversion Ex; reflexivity. }
    rewrite Hn. destruct (f (r_Nama_Item x)); simpl.
    + rewrite Ex, (IH pt eq_refl). reflexivity.
    + apply IH. reflexivity.
Qed.
End BuildFacts.

Lemma records_coerce_drop_item (item : string) (df : DataFrame) :
  records (coerce (drop_item item df))
  = filter (fun r => negb (String.eqb (r_Nama_Item r) item))
           (records (coerce df)).
Proof.
  unfold coerce, drop_item; simpl. symmetry.
  apply filter_map_swap. reflexivity.
Qed.

Section FeatureClaims.
Context {L : Library}.

(** C9. Stable tie ordering: the rows of the feature table that share
    an item and a period are the input rows with that item and period
    (after [fillna]) in their input order. *)
Theorem stable_tie_ordering (df : DataFrame) (ft : list feature_row) :
  prepare_features df = Some ft ->
  exists rows,
    create_periode (records (coerce df)) = Some rows
    /\ forall k,
        filter (fun r => key_eqb (p_key r) k) (map base_of ft)
        = map fill_base (filter (fun r => key_eqb (p_key r) k) rows).
Proof.
  intro H. apply prepare_features_valid in H.
  destruct H as (_ & _ & _ & H).
  apply build_features_eq in H. destruct H as (rows & Hc & ->).
  exists rows. split; [exact Hc|]. intro k.
  rewrite base_of_features.
  rewrite (filter_map_swap fill_base (fun r => key_eqb (p_key r) k)
                           (fun r => key_eqb (p_key r) k))
    by reflexivity.
  f_equal. apply filter_sort_stable.
  intros x y Hx Hy. apply key_eqb_eq in Hx, Hy.
  apply key_leb_same. congruence.
Qed.

(** C3. Cold start: the first row of an item in the feature table is
    its chronologically first one, its lags and its difference are 0,
    and both moving averages equal its own quantity. *)
Theorem cold_start_fill (df : DataFrame) (ft pre post : list feature_row)
    (r : feature_row) :
  prepare_features df = Some ft ->
  ft = pre ++ r :: post ->
  (forall r', In r' pre -> Nama_Item r' <> Nama_Item r) ->
  (forall r', In r' ft -> Nama_Item r' = Nama_Item r ->
              (periode r <= periode r')%Z)
  /\ lag_1 r = Num 0 /\ lag_2 r = Num 0 /\ lag_3 r = Num 0
  /\ diff_1 r = Num 0
  /\ num_eq (ma_3 r) (total_jumlah r)
  /\ num_eq (ma_6 r) (total_jumlah r).
Proof.
  intros H Hft Hfirst. apply prepare_features_valid in H.
  destruct H as (_ & _ & _ & H).
  apply build_features_eq in H. destruct H as (rows & _ & Hrows).
  pose proof (sort_values_sorted by_key by_key_total by_key_trans rows)
    as Hsorted.
  set (ordered := sort_values by_key rows) in *.
  rewrite Hrows in Hft.
  apply map_eq_app in Hft. destruct Hft as (f1 & f2 & Hadd & Hpre & Hrest).
  destruct f2 as [|fr f2]; [discriminate|].
  simpl in Hrest. injection Hrest as Hr Hpost.
  apply add_features_split in Hadd.
  destruct Hadd as (l1 & pr & l2 & Hord & Hf1 & Hfr & Hf2).
  rewrite app_nil_r in Hfr, Hf2.
  assert (Hname : Nama_Item r = p_Nama_Item pr)
    by (rewrite <- Hr, Hfr; reflexivity).
  assert (Hper : periode r = p_periode pr)
    by (rewrite <- Hr, Hfr; reflexivity).
  assert (Hl1 : forall x, In x l1 -> p_Nama_Item x <> p_Nama_Item pr).
  { intros x Hx E.
    assert (Hin : In (p_Nama_Item x) (map Nama_Item pre)).
    { rewrite <- Hpre, Hf1, names_of_features. now apply in_map. }
    apply in_map_iff in Hin. destruct Hin as (r' & Hn & Hin).
    apply (Hfirst r' Hin). congruence. }
  assert (Hhist : group_history (p_Nama_Item pr) (rev l1) = []).
  { apply group_history_none. intros x Hx. apply Hl1.
    now apply in_rev. }
  rewrite Hhist in Hfr.
  split.
  - intros r' Hin Hsame. rewrite Hrows in Hin.
    apply In_features in Hin. destruct Hin as (pr' & Hin & Hn & Hp).
    rewrite Hp, Hper. fold ordered in Hin. rewrite Hord in Hin.
    apply in_app_or in Hin. destruct Hin as [Hin | [<- | Hin]].
    + exfalso. apply (Hl1 pr' Hin). congruence.
    + lia.
    + rewrite Hord in Hsorted.
      pose proof (sorted_app_inv by_key l1 l2 pr Hsorted pr' Hin) as Hle.
      apply (key_leb_same_item (p_key pr) (p_key pr')); [|exact Hle].
      simpl. congruence.
  - rewrite <- Hr, Hfr. simpl. unfold rolling_mean, diff. simpl.
    destruct (p_total_jumlah pr) as [q|]; simpl;
      repeat split; try reflexivity; unfold Qsum; simpl; field.
Qed.

(** C4. Grouping isolation: when the rows of item [B] are removed from
    an input that has rows of another item [A], [prepare_features]
    still returns a table and the rows of [A] in it are the same, with
    the same lags, moving averages and difference. *)
Theorem grouping_isolation (df : DataFrame) (A B : string)
    (ft : list feature_row) :
  A <> B ->
  prepare_features df = Some ft ->
  (exists r, In r (records df) /\ r_Nama_Item r = A) ->
  exists ft',
    prepare_features (drop_item B df) = Some ft'
    /\ filter (is_item A) ft' = filter (is_item A) ft.
Proof.
  intros HAB H (ra & Hra & HA). apply prepare_features_valid in H.
  destruct H as (Hcols & Hmonth & _ & H).
  assert (Hpass : prepare_features (drop_item B df)
                  = build_features (coerce (drop_item B df))).
  { apply prepare_features_passes.
    - exact Hcols.
    - destruct (month_out_of_range (coerce (drop_item B df))) eqn:E;
        [|reflexivity].
      apply month_out_of_range_iff in E.
      destruct E as (r & q & Hin & Hq & Hbad).
      apply filter_In in Hin.
      assert (month_out_of_range (coerce df) = true); [|congruence].
      apply month_out_of_range_iff. exists r, q. tauto.
    - intro E.
      assert (Hin : In ra (records (drop_item B df))).
      { apply filter_In. split; [exact Hra|].
        rewrite HA. destruct (String.eqb_spec A B); [contradiction|reflexivity]. }
      rewrite E in Hin. destruct Hin. }
  apply build_features_eq in H. destruct H as (rows & Hc & ->).
  set (keep := fun n : string => negb (String.eqb n B)).
  assert (Hc' : create_periode (records (coerce (drop_item B df)))
                = Some (filter (fun r => keep (p_Nama_Item r)) rows)).
  { rewrite records_coerce_drop_item.
    apply (create_periode_filter keep). exact Hc. }
  eexists. split.
  - rewrite Hpass. unfold build_features. rewrite Hc'. reflexivity.
  - rewrite !filter_fillna, !filter_add_features. simpl.
    rewrite !(filter_sort_values by_key by_key_total by_key_trans).
    do 3 f_equal. apply filter_filter_absorb.
    intros x Hx. apply String.eqb_eq in Hx. unfold keep. rewrite Hx.
    destruct (String.eqb_spec A B); [contradiction|reflexivity].
Qed.
End FeatureClaims.

Lemma stable_tie_ordering_witness :
  exists rows,
    @create_periode reference_library (records (coerce df_two_items))
    = Some rows
    /\ forall k,
        filter (fun r => key_eqb (p_key r) k) (map base_of ft_two_items)
        = map fill_base (filter (fun r => key_eqb (p_key r) k) rows).
Proof.
  apply (@stable_tie_ordering reference_library df_two_items ft_two_items).
  vm_compute. reflexivity.
Defined.

Lemma cold_start_fill_witness :
  exists pre r post,
    ft_two_items = pre ++ r :: post
    /\ Nama_Item r = "Vit"%string
    /\ lag_1 r = Num 0
    /\ num_eq (ma_3 r) (total_jumlah r).
Proof.
  exists (firstn 4 ft_two_items), (nth 4 ft_two_items blank_row),
         (skipn 5 ft_two_items).
  destruct (@cold_start_fill reference_library df_two_items ft_two_items
              (firstn 4 ft_two_items) (skipn 5 ft_two_items)
              (nth 4 ft_two_items blank_row))
    as (_ & H1 & _ & _ & _ & H3 & _).
  - vm_compute. reflexivity.
  - vm_compute. reflexivity.
  - intros r' Hin. vm_compute in Hin.
    destruct Hin as [<-|[<-|[<-|[<-|[]]]]]; vm_compute; discriminate.
  - split; [reflexivity|]. split; [reflexivity|]. split; [exact H1 | exact H3].
Defined.

Lemma grouping_isolation_witness :
  exists ft',
    @prepare_features reference_library (drop_item "Vit" df_two_items)
    = Some ft'
    /\ filter (is_item "Aqua") ft' = filter (is_item "Aqua") ft_two_items.
Proof.
  apply (@grouping_isolation reference_library df_two_items "Aqua" "Vit"
           ft_two_items).
  - discriminate.
  - vm_compute. reflexivity.
  - exists (sale 2024 2 "Aqua" 20). split; [simpl; auto | reflexivity].
Defined.

(* ================================================================= *)
(** * Properties of the rollout *)

Lemma fold_left_flat_map {A B C : Type} (f : A -> C -> A) (g : B -> list C)
    (l : list B) (a : A) :
  fold_left f (flat_map g l) a = fold_left (fun a x => fold_left f (g x) a) l a.
Proof.
  revert a. induction l as [|x t IH]; intro a; simpl; [reflexivity|].
  rewrite fold_left_app. apply IH.
Qed.

Lemma fold_left_map_items {A B C : Type} (f : A -> C -> A) (g : B -> C)
    (l : list B) (a : A) :
  fold_left f (map g l) a = fold_left (fun a x => f a (g x)) l a.
Proof.
  revert a. induction l as [|x t IH]; intro a; simpl; [reflexivity|].
  apply IH.
Qed.

(** The nested loops visit the pairs of [work] in order. *)
Lemma rollout_run (s : num) (model : Model) (months : Z)
    (seeds : list feature_row) :
  rollout s model months seeds = run s model (work months seeds).
Proof.
  unfold rollout, run, work. rewrite fold_left_flat_map.
  generalize (@nil forecast_row).
  induction (steps months) as [|i t IH]; intro a; simpl; [reflexivity|].
  rewrite fold_left_map_items. apply IH.
Qed.

Lemma run_snoc (s : num) (model : Model) (items : list (Z * feature_row))
    (item : Z * feature_row) :
  run s model (items ++ [item]) = rollout_step s model (run s model items) item.
Proof. unfold run. now rewrite fold_left_app. Qed.

Lemma In_steps (months i : Z) : In i (steps months) <-> (1 <= i <= months)%Z.
Proof.
  unfold steps. rewrite in_map_iff. split.
  - intros (n & <- & Hn). apply in_seq in Hn. lia.
  - intro H. exists (Z.to_nat i). split; [lia|]. apply in_seq. lia.
Qed.

Lemma In_work (months : Z) (seeds : list feature_row) (i : Z)
    (row : feature_row) :
  In (i, row) (work months seeds) <-> (1 <= i <= months)%Z /\ In row seeds.
Proof.
  unfold work. rewrite in_flat_map. split.
  - intros (j & Hj & Hin). apply in_map_iff in Hin.
    destruct Hin as (r & E & Hr). inversion E; subst.
    split; [now apply In_steps | exact Hr].
  - intros [Hi Hr]. exists i. split; [now apply In_steps|].
    apply in_map_iff. eauto.
Qed.

(** What a row appended by the loop body is made of. *)
Lemma predict_row_some (s : num) (model : Model) (i : Z) (row : feature_row)
    (preds : list forecast_row) (e : forecast_row) :
  predict_row s model i row preds = Some e ->
  exists x raw rest,
    step_features i row preds = Some x
    /\ model [x] = Some (raw :: rest)
    /\ f_Nama_Item e = Nama_Item row
    /\ f_periode e = add_months (periode row) i
    /\ prediksi_jumlah e = Qpy_max raw 0
    /\ CI_lower e = py_max (nsub (Num (prediksi_jumlah e)) (nmul (Num 1.96) s))
                           (Num 0)
    /\ CI_upper e = nadd (Num (prediksi_jumlah e)) (nmul (Num 1.96) s).
Proof.
  unfold predict_row.
  destruct (step_features i row preds) as [x|]; [|discriminate].
  destruct (model [x]) as [[|raw rest]|] eqn:M; try discriminate.
  intro H. inversion H; subst; clear H. simpl.
  exists x, raw, rest. repeat split; auto.
Qed.

(** Every row of the running set was appended by the loop body for one
    of the pairs already visited, from the running set of that moment. *)
Lemma run_origin (s : num) (model : Model) (items : list (Z * feature_row))
    (e : forecast_row) :
  In e (run s model items) ->
  exists d1 i row d2,
    items = d1 ++ (i, row) :: d2
    /\ predict_row s model i row (run s model d1) = Some e.
Proof.
  induction items as [|[i row] items IH] using rev_ind.
  - intros [].
  - rewrite run_snoc. unfold rollout_step at 1. simpl.
    destruct (predict_row s model i row (run s model items)) as [e'|] eqn:P.
    + intro H. apply in_app_or in H. destruct H as [H | [<- | []]].
      * destruct (IH H) as (d1 & j & r & d2 & -> & Hp).
        exists d1, j, r, (d2 ++ [(i, row)]).
        rewrite <- app_assoc. simpl. auto.
      * exists items, i, row, []. auto.
    + intro H. destruct (IH H) as (d1 & j & r & d2 & -> & Hp).
      exists d1, j, r, (d2 ++ [(i, row)]).
      rewrite <- app_assoc. simpl. auto.
Qed.

Lemma Qpy_max_nonneg (raw : Q) : 0 <= Qpy_max raw 0.
Proof.
  unfold Qpy_max. destruct (Qlt_bool raw 0) eqn:E.
  - lra.
  - now apply Qlt_bool_false in E.
Qed.

Lemma In_last_data (df : list feature_row) (r : feature_row) :
  In r (last_data df) -> In r df.
Proof.
  induction df as [|x t IH]; simpl; [auto|].
  destruct (existsb _ t); simpl; intuition.
Qed.

(** [tail(1)] keeps one row per item. *)
Lemma last_data_unique (df : list feature_row) (r r' : feature_row) :
  In r (last_data df) -> In r' (last_data df) ->
  Nama_Item r = Nama_Item r' -> r = r'.
Proof.
  induction df as [|x t IH]; simpl; [intros []|].
  destruct (existsb (fun r' => String.eqb (Nama_Item r') (Nama_Item x)) t)
    eqn:E; [exact IH|].
  assert (Hx : forall y, In y (last_data t) -> Nama_Item y <> Nama_Item x).
  { intros y Hy Hn. apply In_last_data in Hy.
    assert (existsb (fun r' => String.eqb (Nama_Item r') (Nama_Item x)) t
            = true); [|congruence].
    apply existsb_exists. exists y. split; [exact Hy|].
    now apply String.eqb_eq. }
  intros [<- | H1] [<- | H2] Hn; auto.
  - exfalso. apply (Hx r' H2). auto.
  - exfalso. apply (Hx r H1). auto.
Qed.

Lemma lookup_some (preds : list forecast_row) (name : string) (p : period)
    (q : Q) :
  lookup preds name p = Some q ->
  exists e, In e preds /\ f_Nama_Item e = name /\ f_periode e = p
            /\ prediksi_jumlah e = q.
Proof.
  unfold lookup.
  destruct (filter _ preds) as [|e l] eqn:F; [discriminate|].
  intro H. inversion H; subst.
  assert (Hin : In e (filter (fun e => String.eqb (f_Nama_Item e) name
                                       && (f_periode e =? p)%Z) preds))
    by (rewrite F; now left).
  apply filter_In in Hin. destruct Hin as [Hin Hm].
  apply andb_true_iff in Hm. destruct Hm as [Hn Hp].
  apply String.eqb_eq in Hn. apply Z.eqb_eq in Hp.
  exists e. auto.
Qed.

Lemma step_features_some (i : Z) (row : feature_row)
    (preds : list forecast_row) (x : feature_vector) :
  step_features i row preds = Some x ->
  exists lags,
    lag_features i row preds = Some lags /\ x = features_input i row lags.
Proof.
  unfold step_features.
  destruct (lag_features i row preds) as [lags|]; [|discriminate].
  intro H. inversion H. eauto.
Qed.

Section ForecastFacts.
Context {L : Library}.

Lemma predict_future_forecast (df : list feature_row) (model : Model)
    (months : Z) (t : list forecast_row) :
  predict_future (Some df) (Some model) months = Forecast t ->
  (1 <= months <= 12)%Z
  /\ t = sort_values by_forecast_key
           (run (std_pred df model) model (work months (last_data df)))
  /\ t <> [].
Proof.
  unfold predict_future.
  destruct ((months <=? 0) || (12 <? months))%Z eqn:E; [discriminate|].
  apply orb_false_iff in E. destruct E as [E1 E2].
  apply Z.leb_gt in E1. apply Z.ltb_ge in E2.
  rewrite rollout_run.
  destruct (run _ model _) as [|e l] eqn:R; [discriminate|].
  intro H. injection H as <-. split; [lia|]. split; [reflexivity|].
  intro E. apply (f_equal (@List.length _)) in E.
  simpl in E. rewrite length_insert in E. discriminate.
Qed.

(** Every row of the forecast table was appended by the loop body with
    the residual spread of the run. *)
Lemma forecast_rows (df : list feature_row) (model : Model) (months : Z)
    (t : list forecast_row) (r : forecast_row) :
  predict_future (Some df) (Some model) months = Forecast t ->
  In r t ->
  exists i row preds,
    In (i, row) (work months (last_data df))
    /\ predict_row (std_pred df model) model i row preds = Some r.
Proof.
  intros H Hin. apply predict_future_forecast in H.
  destruct H as (_ & -> & _).
  apply In_sort_values in Hin. apply run_origin in Hin.
  destruct Hin as (d1 & i & row & d2 & E & Hp).
  exists i, row, (run (std_pred df model) model d1).
  split; [|exact Hp]. rewrite E. apply in_or_app. right. now left.
Qed.

(** X13. The predicted quantity of a forecast row is never negative; the
    lower bound is not negative either when the residual spread of the
    run is a number. *)
Lemma forecast_nonneg (df : list feature_row) (model : Model) (months : Z)
    (t : list forecast_row) (r : forecast_row) :
  predict_future (Some df) (Some model) months = Forecast t ->
  In r t ->
  0 <= prediksi_jumlah r
  /\ (std_pred df model <> NaN -> nonneg (CI_lower r)).
Proof.
  intros H Hin. destruct (forecast_rows _ _ _ _ _ H Hin) as (i & row & preds & _ & Hp).
  apply predict_row_some in Hp.
  destruct Hp as (x & raw & rest & _ & _ & _ & _ & Hq & Hlo & _).
  split.
  - rewrite Hq. apply Qpy_max_nonneg.
  - intro Hs. rewrite Hlo.
    destruct (std_pred df model) as [sv|]; [|contradiction].
    unfold py_max. simpl.
    destruct (Qlt_bool (prediksi_jumlah r - 1.96 * sv) 0) eqn:E; simpl.
    + lra.
    + now apply Qlt_bool_false in E.
Qed.

(** A run with no successful row fails; no empty table is returned. *)
Lemma predict_future_no_rows (df : list feature_row) (model : Model)
    (months : Z) :
  (1 <= months <= 12)%Z ->
  rollout (std_pred df model) model months (last_data df) = [] ->
  predict_future (Some df) (Some model) months = Failed NoPredictions.
Proof.
  intros Hm Hr. unfold predict_future.
  destruct ((months <=? 0) || (12 <? months))%Z eqn:E.
  - apply orb_true_iff in E. destruct E as [E | E];
      [apply Z.leb_le in E | apply Z.ltb_lt in E]; lia.
  - now rewrite Hr.
Qed.
End ForecastFacts.

(* ================================================================= *)
(** * The forecaster's properties *)

Lemma features_input_shape (i : Z) (row : feature_row) (lags : num * num * num) :
  let x := features_input i row lags in
  lags = (x_lag_1 x, x_lag_2 x, x_lag_3 x)
  /\ x_ma_6 x = (if isna (ma_6 row) then Num 0 else ma_6 row)
  /\ x_ma_3 x = ndiv (nadd (nadd (x_lag_1 x) (x_lag_2 x)) (x_lag_3 x)) (Num 3)
  /\ x_diff_1 x = nsub (x_lag_1 x) (x_lag_2 x).
Proof. destruct lags as [[l1 l2] l3]. simpl. auto. Qed.

Section ForecastClaims.
Context {L : Library}.

Lemma prepare_features_no_na (df : DataFrame) (ft : list feature_row)
    (row : feature_row) :
  prepare_features df = Some ft -> In row ft -> has_na row = false.
Proof.
  intros H Hin. apply prepare_features_valid in H.
  destruct H as (_ & _ & _ & H). apply build_features_eq in H.
  destruct H as (rows & _ & ->). apply in_map_iff in Hin.
  destruct Hin as (r & <- & _). unfold has_na, fillna; simpl.
  destruct (Tahun r), (Bulan r), (total_jumlah r), (quarter r),
    (is_start_year r), (is_end_year r), (lag_1 r), (lag_2 r), (lag_3 r),
    (ma_3 r), (ma_6 r), (diff_1 r); reflexivity.
Qed.

(** C8. Within a rollout the feature vector of a seed row at step [i]
    is the one handed to the model, and its [ma_6] is the same at every
    step and whatever the running set holds: it is the seed's own
    [ma_6] (a number for every row that [prepare_features] returns; 0
    would stand in for a missing one).  Its three lags are those the
    step selects from the seed and the running set, its [ma_3] is their
    mean and its [diff_1] the difference of the first two; at step 1
    these are the mean of the seed's quantity, [lag_1] and [lag_2] and
    the difference of the seed's quantity and [lag_1]. *)
Theorem ma_6_frozen (row : feature_row) (i j : Z)
    (preds preds' : list forecast_row) (x x' : feature_vector) :
  step_features i row preds = Some x ->
  step_features j row preds' = Some x' ->
  x_ma_6 x = x_ma_6 x'
  /\ (ma_6 row <> NaN -> x_ma_6 x = ma_6 row)
  /\ (forall df ft, prepare_features df = Some ft -> In row ft ->
                    x_ma_6 x = ma_6 row)
  /\ (exists l1 l2 l3,
        lag_features i row preds = Some (l1, l2, l3)
        /\ x_lag_1 x = l1 /\ x_lag_2 x = l2 /\ x_lag_3 x = l3
        /\ x_ma_3 x = ndiv (nadd (nadd l1 l2) l3) (Num 3)
        /\ x_diff_1 x = nsub l1 l2)
  /\ (i = 1%Z ->
      x_ma_3 x = ndiv (nadd (nadd (total_jumlah row) (lag_1 row)) (lag_2 row))
                      (Num 3)
      /\ x_diff_1 x = nsub (total_jumlah row) (lag_1 row))
  /\ (forall s model e,
        predict_row s model i row preds = Some e ->
        exists raw rest,
          model [x] = Some (raw :: rest)
          /\ prediksi_jumlah e = Qpy_max raw 0)
  /\ x_ma_3 x = ndiv (nadd (nadd (x_lag_1 x) (x_lag_2 x)) (x_lag_3 x)) (Num 3)
  /\ x_diff_1 x = nsub (x_lag_1 x) (x_lag_2 x).
Proof.
  intros Hx Hx'. pose proof Hx as Hstep.
  apply step_features_some in Hx, Hx'.
  destruct Hx as (lags & Hlags & ->). destruct Hx' as (lags' & _ & ->).
  destruct (features_input_shape i row lags) as (Hl & H6 & H3 & Hd).
  destruct (features_input_shape j row lags') as (_ & H6' & _).
  split; [congruence|].
  split; [|split; [|split; [|split; [|split; [|split; assumption]]]]].
  - intro Hn. rewrite H6. destruct (ma_6 row); [reflexivity|contradiction].
  - intros df ft Hf Hin. rewrite H6.
    pose proof (prepare_features_no_na df ft row Hf Hin) as Hna.
    unfold has_na in Hna. destruct (ma_6 row); [reflexivity|].
    simpl in Hna. rewrite !orb_true_r in Hna. discriminate.
  - destruct lags as [[l1 l2] l3]. exists l1, l2, l3.
    split; [exact Hlags|]. simpl. auto.
  - intros ->. unfold lag_features in Hlags. simpl in Hlags.
    inversion Hlags; subst. simpl. auto.
  - intros s model e Hp. apply predict_row_some in Hp.
    destruct Hp as (x0 & raw & rest & Hx0 & Hm & _ & _ & Hq & _).
    rewrite Hstep in Hx0. inversion Hx0; subst.
    exists raw, rest. auto.
Qed.

(** C2, as the code has it. In a run whose residual spread [std_pred]
    is a number, every forecast row has
    [CI_upper = prediction + 1.96 * std_pred] with that one value of
    [std_pred]; the width [CI_upper - CI_lower] is
    [2 * 1.96 * std_pred] when the prediction is at least
    [1.96 * std_pred], and otherwise [CI_lower] is clamped to 0 and the
    width is [prediction + 1.96 * std_pred]. *)
Theorem confidence_band_width (df : list feature_row) (model : Model)
    (months : Z) (t : list forecast_row) (r : forecast_row) (sv : Q) :
  predict_future (Some df) (Some model) months = Forecast t ->
  In r t ->
  std_pred df model = Num sv ->
  num_eq (CI_upper r) (Num (prediksi_jumlah r + 1.96 * sv))
  /\ (1.96 * sv <= prediksi_jumlah r ->
      num_eq (nsub (CI_upper r) (CI_lower r)) (Num (2 * 1.96 * sv)))
  /\ (prediksi_jumlah r < 1.96 * sv ->
      num_eq (CI_lower r) (Num 0)
      /\ num_eq (nsub (CI_upper r) (CI_lower r))
                (Num (prediksi_jumlah r + 1.96 * sv))).
Proof.
  intros H Hin Hs.
  destruct (forecast_rows _ _ _ _ _ H Hin) as (i & row & preds & _ & Hp).
  apply predict_row_some in Hp.
  destruct Hp as (x & raw & rest & _ & _ & _ & _ & _ & Hlo & Hup).
  rewrite Hs in Hlo, Hup. rewrite Hlo, Hup. unfold py_max. simpl.
  split; [reflexivity|]. split.
  - intro Hge.
    destruct (Qlt_bool (prediksi_jumlah r - 1.96 * sv) 0) eqn:E; simpl.
    + apply Qlt_bool_iff in E. lra.
    + lra.
  - intro Hlt.
    destruct (Qlt_bool (prediksi_jumlah r - 1.96 * sv) 0) eqn:E; simpl.
    + split; [reflexivity | lra].
    + apply Qlt_bool_false in E. lra.
Qed.
End ForecastClaims.

Lemma ma_6_frozen_witness :
  exists x x',
    step_features 1 seed_aqua [] = Some x
    /\ step_features 2 seed_aqua [aqua_april] = Some x'
    /\ x_ma_6 x = x_ma_6 x'
    /\ x_ma_6 x = ma_6 seed_aqua
    /\ num_eq (x_ma_3 x) (Num 90) /\ num_eq (x_diff_1 x) (Num 10)
    /\ x_lag_1 x' = Num 7
    /\ num_eq (x_ma_3 x') (Num 59) /\ num_eq (x_diff_1 x') (Num (-83)).
Proof.
  eexists. eexists.
  split; [reflexivity|]. split; [reflexivity|].
  destruct (@ma_6_frozen reference_library seed_aqua 1 2 [] [aqua_april]
              _ _ eq_refl eq_refl) as (H1 & H2 & _ & _ & H5 & _).
  destruct (@ma_6_frozen reference_library seed_aqua 2 1 [aqua_april] []
              _ _ eq_refl eq_refl)
    as (_ & _ & _ & (l1 & l2 & l3 & Hl & Hl1 & _ & _ & Hm & Hd) & _).
  split; [exact H1|]. split; [apply H2; discriminate|].
  destruct (H5 eq_refl) as [Hm1 Hd1].
  split; [rewrite Hm1; vm_compute; reflexivity|].
  split; [rewrite Hd1; vm_compute; reflexivity|].
  vm_compute in Hl. injection Hl as E1 E2 E3.
  split; [rewrite Hl1, <- E1; reflexivity|].
  split; [rewrite Hm, <- E1, <- E2, <- E3 | rewrite Hd, <- E1, <- E2];
    vm_compute; reflexivity.
Defined.

Lemma confidence_band_width_witness :
  exists r,
    @predict_future reference_library (Some ft_three_months)
      (Some (constant_model 3)) 1 = Forecast [r]
    /\ num_eq (nsub (CI_upper r) (CI_lower r)) (Num (2 * 1.96 * 1)).
Proof.
  eexists. split; [vm_compute; reflexivity|].
  destruct (@confidence_band_width reference_library ft_three_months
              (constant_model 3) 1 _ _ 1 eq_refl (or_introl eq_refl))
    as (_ & H & _).
  - vm_compute. reflexivity.
  - apply H. vm_compute. discriminate.
Defined.

(** C2 as stated fails: with quantities 1, 2, 3 and a model that always
    answers 1, the residual spread is 1, the only forecast row has
    prediction 1, [CI_lower] clamped to 0 and [CI_upper = 2.96]: the
    width is 2.96, not [2 * 1.96 * 1 = 3.92]. *)
Lemma confidence_band_width_counterexample :
  @prepare_features reference_library df_three_months = Some ft_three_months
  /\ @std_pred reference_library ft_three_months (constant_model 1) = Num 1
  /\ exists r,
      @predict_future reference_library (Some ft_three_months)
        (Some (constant_model 1)) 1 = Forecast [r]
      /\ num_eq (CI_lower r) (Num 0)
      /\ num_eq (CI_upper r) (Num 2.96)
      /\ ~ num_eq (nsub (CI_upper r) (CI_lower r)) (Num (2 * 1.96 * 1)).
Proof.
  split; [vm_compute; reflexivity|]. split; [vm_compute; reflexivity|].
  eexists. split; [vm_compute; reflexivity|].
  split; [vm_compute; reflexivity|]. split; [vm_compute; reflexivity|].
  vm_compute. discriminate.
Qed.

(** C5 at a table with a single row: the residual spread of one residual
    is NaN, and so is the lower bound of the forecast row, which is
    therefore not [>= 0]. *)
Theorem ci_lower_single_row :
  @prepare_features reference_library df_single = Some ft_single
  /\ @std_pred reference_library ft_single (constant_model 5) = NaN
  /\ exists r,
      @predict_future reference_library (Some ft_single)
        (Some (constant_model 5)) 1 = Forecast [r]
      /\ prediksi_jumlah r == 5
      /\ CI_lower r = NaN
      /\ ~ nonneg (CI_lower r).
Proof.
  split; [vm_compute; reflexivity|]. split; [vm_compute; reflexivity|].
  eexists. split; [vm_compute; reflexivity|].
  split; [reflexivity|]. split; [reflexivity|].
  simpl. tauto.
Qed.

(** C7 at a table with a single item and a three-month horizon: the
    model raises on the first step only, the running set is still empty
    at the second and third steps, where the selection raises before
    the model is called, and the run ends with no prediction although
    the model answers on the vectors of those steps. *)
Theorem single_failure_stops_rollout :
  @predict_future reference_library (Some ft_single)
    (Some (fussy_model 2 10 5)) 3 = Failed NoPredictions
  /\ last_data ft_single = [seed_single]
  /\ (exists x1, step_features 1 seed_single [] = Some x1
                 /\ fussy_model 2 10 5 [x1] = None)
  /\ step_features 2 seed_single [] = None
  /\ step_features 3 seed_single [] = None
  /\ (forall lags, fussy_model 2 10 5 [features_input 2 seed_single lags]
                   = Some [5])
  /\ (forall lags, fussy_model 2 10 5 [features_input 3 seed_single lags]
                   = Some [5]).
Proof.
  split; [vm_compute; reflexivity|]. split; [reflexivity|].
  split; [eexists; split; reflexivity|].
  split; [reflexivity|]. split; [reflexivity|].
  split; intros [[l1 l2] l3]; reflexivity.
Qed.

(* ================================================================= *)
(** * The lag recurrence *)

Lemma rollout_step_incl (s : num) (model : Model)
    (items : list (Z * feature_row)) (preds : list forecast_row)
    (e : forecast_row) :
  In e preds -> In e (fold_left (rollout_step s model) items preds).
Proof.
  revert preds. induction items as [|x t IH]; intros preds H; simpl; [exact H|].
  apply IH. unfold rollout_step.
  destruct (predict_row s model (fst x) (snd x) preds); [|exact H].
  apply in_or_app. now left.
Qed.

Lemma run_app_incl (s : num) (model : Model) (l1 l2 : list (Z * feature_row))
    (e : forecast_row) :
  In e (run s model l1) -> In e (run s model (l1 ++ l2)).
Proof.
  unfold run. rewrite fold_left_app. apply rollout_step_incl.
Qed.

Lemma NoDup_last_data (df : list feature_row) : NoDup (last_data df).
Proof.
  induction df as [|x t IH]; simpl; [constructor|].
  destruct (existsb (fun r' => String.eqb (Nama_Item r') (Nama_Item x)) t)
    eqn:E; [exact IH|].
  constructor; [|exact IH]. intro Hin. apply In_last_data in Hin.
  assert (existsb (fun r' => String.eqb (Nama_Item r') (Nama_Item x)) t = true);
    [|congruence].
  apply existsb_exists. exists x. split; [exact Hin | apply String.eqb_refl].
Qed.

Lemma NoDup_steps (months : Z) : NoDup (steps months).
Proof.
  unfold steps. apply NoDup_map_NoDup_ForallPairs; [|apply seq_NoDup].
  intros a b _ _ H. lia.
Qed.

Lemma NoDup_work (months : Z) (seeds : list feature_row) :
  NoDup seeds -> NoDup (work months seeds).
Proof.
  intro Hs. unfold work.
  pose proof (NoDup_steps months) as Hn.
  induction (steps months) as [|i t IH]; simpl; [constructor|].
  inversion Hn as [|? ? Hni Hnt]; subst. apply NoDup_app.
  - apply NoDup_map_NoDup_ForallPairs; [|exact Hs].
    intros a b _ _ H. now inversion H.
  - now apply IH.
  - intros [j r] Hj Hk. apply in_map_iff in Hj.
    destruct Hj as (r' & E & _). inversion E; subst.
    apply in_flat_map in Hk. destruct Hk as (k & Hk & Hr).
    apply in_map_iff in Hr. destruct Hr as (r'' & E' & _).
    inversion E'; subst. contradiction.
Qed.

Lemma split_unique {A : Type} (x : A) (l1 l2 l1' l2' : list A) :
  l1 ++ x :: l2 = l1' ++ x :: l2' -> ~ In x l1 -> ~ In x l1' -> l1 = l1'.
Proof.
  revert l1'. induction l1 as [|a t IH]; intros [|a' t'] H H1 H2; simpl in *.
  - reflexivity.
  - inversion H; subst. exfalso. apply H2. now left.
  - inversion H; subst. exfalso. apply H1. now left.
  - inversion H; subst. f_equal. apply (IH t'); auto.
Qed.

Lemma NoDup_split_unique {A : Type} (x : A) (l1 l2 l1' l2' : list A) :
  NoDup (l1 ++ x :: l2) -> l1 ++ x :: l2 = l1' ++ x :: l2' -> l1 = l1'.
Proof.
  intros Hn E. apply (split_unique x l1 l2 l1' l2' E).
  - apply NoDup_remove_2 in Hn. intro H. apply Hn. apply in_or_app. now left.
  - rewrite E in Hn. apply NoDup_remove_2 in Hn. intro H. apply Hn.
    apply in_or_app. now left.
Qed.

Lemma lookup_first (preds : list forecast_row) (name : string) (p : period)
    (e : forecast_row) :
  In e preds -> f_Nama_Item e = name -> f_periode e = p ->
  exists e0, In e0 preds /\ f_Nama_Item e0 = name /\ f_periode e0 = p
             /\ lookup preds name p = Some (prediksi_jumlah e0).
Proof.
  intros Hin Hn Hp. unfold lookup.
  destruct (filter _ preds) as [|e0 l] eqn:F.
  - assert (H : In e (filter (fun e => String.eqb (f_Nama_Item e) name
                                       && (f_periode e =? p)%Z) preds)).
    { apply filter_In. split; [exact Hin|].
      apply andb_true_iff. split; [now apply String.eqb_eq | now apply Z.eqb_eq]. }
    rewrite F in H. destruct H.
  - assert (H : In e0 (filter (fun e => String.eqb (f_Nama_Item e) name
                                        && (f_periode e =? p)%Z) preds))
      by (rewrite F; now left).
    apply filter_In in H. destruct H as [H Hm].
    apply andb_true_iff in Hm. destruct Hm as [Hn0 Hp0].
    apply String.eqb_eq in Hn0. apply Z.eqb_eq in Hp0.
    exists e0. auto.
Qed.

(** A row of the running set found for an item and a month is the one
    the loop body appended for that seed at that step. *)
Lemma prediction_origin (df : list feature_row) (s : num) (model : Model)
    (months : Z) (done rest : list (Z * feature_row)) (i : Z)
    (row : feature_row) (e : forecast_row) (j : Z) :
  work months (last_data df) = done ++ (i, row) :: rest ->
  In e (run s model done) ->
  f_Nama_Item e = Nama_Item row ->
  f_periode e = add_months (periode row) j ->
  exists d1 d2,
    done = d1 ++ (j, row) :: d2
    /\ predict_row s model j row (run s model d1) = Some e.
Proof.
  intros Hw Hin Hn Hp.
  apply run_origin in Hin. destruct Hin as (d1 & i' & row' & d2 & Hd & Hpr).
  pose proof Hpr as Hpr'. apply predict_row_some in Hpr'.
  destruct Hpr' as (_ & _ & _ & _ & _ & Hn' & Hp' & _).
  assert (Hrow : In (i, row) (work months (last_data df))).
  { rewrite Hw. apply in_or_app. right. now left. }
  assert (Hrow' : In (i', row') (work months (last_data df))).
  { rewrite Hw, Hd. apply in_or_app. left. apply in_or_app. right. now left. }
  apply In_work in Hrow, Hrow'.
  assert (row' = row).
  { apply (last_data_unique df); try tauto. congruence. }
  subst row'.
  assert (i' = j) by (unfold add_months in *; lia). subst i'.
  exists d1, d2. auto.
Qed.

(** C1, as the code has it. For every seed row and every step [i] of the
    rollout: at step 1 the lags are the seed's quantity, [lag_1] and
    [lag_2]. At a step [i >= 2] reached with a non-empty running set:
    when the item's prediction of step [i - 1] is in the set, [lag_1] is
    that prediction, [lag_2] is the prediction of step [i - 2] when it
    is in the set and the seed's [lag_1] otherwise (always so for
    [i = 2]), and [lag_3] is the prediction of step [i - 3] when it is
    in the set and the seed's [lag_2] otherwise; when the prediction of
    step [i - 1] is not in the set, the lags are again the seed's
    quantity, [lag_1] and [lag_2].  The prediction of step [j] found in
    the set is the quantity the loop body appended for this seed at
    step [j]; there is none for [j <= 0]. *)
Theorem rollout_lags (df : list feature_row) (s : num) (model : Model)
    (months : Z) (done rest : list (Z * feature_row)) (i : Z)
    (row : feature_row) :
  work months (last_data df) = done ++ (i, row) :: rest ->
  let future_preds := run s model done in
  let prediction j :=
    lookup future_preds (Nama_Item row) (add_months (periode row) j) in
  (1 <= i <= months)%Z
  /\ (i = 1%Z ->
      lag_features i row future_preds
      = Some (total_jumlah row, lag_1 row, lag_2 row))
  /\ ((2 <= i)%Z -> future_preds <> [] ->
      lag_features i row future_preds
      = Some match prediction (i - 1)%Z with
             | Some p1 =>
                 (Num p1,
                  match prediction (i - 2)%Z with
                  | Some p2 => Num p2
                  | None => lag_1 row
                  end,
                  match prediction (i - 3)%Z with
                  | Some p3 => Num p3
                  | None => lag_2 row
                  end)
             | None => (total_jumlah row, lag_1 row, lag_2 row)
             end)
  /\ (forall j q,
        prediction j = Some q <->
        exists d1 d2 e,
          done = d1 ++ (j, row) :: d2
          /\ predict_row s model j row (run s model d1) = Some e
          /\ prediksi_jumlah e = q)
  /\ (forall j, (j <= 0)%Z -> prediction j = None).
Proof.
  intros Hw future_preds prediction.
  assert (Hin : In (i, row) (work months (last_data df))).
  { rewrite Hw. apply in_or_app. right. now left. }
  apply In_work in Hin. destruct Hin as [Hi Hrow].
  assert (Hchar : forall j q,
             prediction j = Some q <->
             exists d1 d2 e,
               done = d1 ++ (j, row) :: d2
               /\ predict_row s model j row (run s model d1) = Some e
               /\ prediksi_jumlah e = q).
  { intros j q. unfold prediction. split.
    - intro H. apply lookup_some in H.
      destruct H as (e & He & Hn & Hp & Hq).
      destruct (prediction_origin df s model months done rest i row e j
                  Hw He Hn Hp) as (d1 & d2 & Hd & Hpr).
      exists d1, d2, e. auto.
    - intros (d1 & d2 & e & Hd & Hpr & Hq).
      assert (He : In e future_preds).
      { unfold future_preds. rewrite Hd.
        replace (d1 ++ (j, row) :: d2) with ((d1 ++ [(j, row)]) ++ d2)
          by (rewrite <- app_assoc; reflexivity).
        apply run_app_incl. rewrite run_snoc. unfold rollout_step. simpl.
        rewrite Hpr. apply in_or_app. right. now left. }
      pose proof Hpr as Hpr'. apply predict_row_some in Hpr'.
      destruct Hpr' as (_ & _ & _ & _ & _ & Hn & Hp & _).
      destruct (lookup_first future_preds _ _ e He Hn Hp)
        as (e0 & He0 & Hn0 & Hp0 & Hl).
      destruct (prediction_origin df s model months done rest i row e0 j
                  Hw He0 Hn0 Hp0) as (d1' & d2' & Hd' & Hpr0).
      assert (Hnd : NoDup done).
      { pose proof (NoDup_work months (last_data df) (NoDup_last_data df)) as N.
        rewrite Hw in N. now apply NoDup_app_remove_r in N. }
      assert (d1 = d1').
      { apply (NoDup_split_unique (j, row) d1 d2 d1' d2'); congruence. }
      subst d1'. rewrite Hl. congruence. }
  assert (Hnone : forall j, (j <= 0)%Z -> prediction j = None).
  { intros j Hj. destruct (prediction j) as [q|] eqn:E; [|reflexivity].
    apply Hchar in E. destruct E as (d1 & d2 & e & Hd & _).
    assert (Hj' : In (j, row) (work months (last_data df))).
    { rewrite Hw, Hd. apply in_or_app. left. apply in_or_app. right. now left. }
    apply In_work in Hj'. lia. }
  split; [exact Hi|]. split; [|split; [|split; [exact Hchar | exact Hnone]]].
  - intros ->. reflexivity.
  - intros H2 Hne. unfold lag_features.
    replace (i =? 1)%Z with false by (symmetry; apply Z.eqb_neq; lia).
    replace (add_months (add_months (periode row) i) (-1))
      with (add_months (periode row) (i - 1)) by (unfold add_months; lia).
    replace (add_months (add_months (periode row) i) (-2))
      with (add_months (periode row) (i - 2)) by (unfold add_months; lia).
    replace (add_months (add_months (periode row) i) (-3))
      with (add_months (periode row) (i - 3)) by (unfold add_months; lia).
    fold (prediction (i - 1)%Z) (prediction (i - 2)%Z) (prediction (i - 3)%Z).
    destruct future_preds as [|e0 l] eqn:F; [contradiction|].
    destruct (prediction (i - 1)%Z) as [p1|]; [|reflexivity].
    replace (2 <=? i)%Z with true by (symmetry; apply Z.leb_le; lia).
    destruct (3 <=? i)%Z eqn:E3; [reflexivity|].
    apply Z.leb_gt in E3. rewrite (Hnone (i - 3)%Z) by lia. reflexivity.
Qed.

Lemma rollout_lags_witness :
  lag_features 2 seed_aqua preds_step_1
  = Some (total_jumlah seed_aqua, lag_1 seed_aqua, lag_2 seed_aqua).
Proof.
  destruct (rollout_lags ft_rollout
              (@std_pred reference_library ft_rollout rollout_model)
              rollout_model 2
              [(1%Z, seed_aqua); (1%Z, seed_vit)] [(2%Z, seed_vit)]
              2 seed_aqua)
    as (_ & _ & H & _).
  - vm_compute. reflexivity.
  - fold preds_step_1 in H. rewrite H.
    + vm_compute. reflexivity.
    + lia.
    + vm_compute. discriminate.
Defined.

(** C1 as stated fails: the model raises for the first item at step 1
    and answers for the second, so at step 2 the running set is not
    empty and holds no prediction for the first item; the first lag of
    step 2 is then the seed's quantity, 100, not the seed's [lag_1],
    90. *)
Lemma rollout_lags_counterexample :
  @prepare_features reference_library df_rollout = Some ft_rollout
  /\ work 2 (last_data ft_rollout)
     = [(1%Z, seed_aqua); (1%Z, seed_vit)] ++ (2%Z, seed_aqua)
       :: [(2%Z, seed_vit)]
  /\ preds_step_1 <> []
  /\ lookup preds_step_1 (Nama_Item seed_aqua)
            (add_months (periode seed_aqua) 1) = None
  /\ lag_1 seed_aqua = Num 90
  /\ exists x,
      step_features 2 seed_aqua preds_step_1 = Some x
      /\ x_lag_1 x = Num 100
      /\ ~ num_eq (x_lag_1 x) (lag_1 seed_aqua).
Proof.
  split; [vm_compute; reflexivity|]. split; [vm_compute; reflexivity|].
  split; [vm_compute; discriminate|]. split; [vm_compute; reflexivity|].
  split; [reflexivity|].
  eexists. split; [vm_compute; reflexivity|].
  split; [reflexivity|]. vm_compute. discriminate.
Qed.

(* ================================================================= *)
(** * Further properties of validation *)

Lemma bool_eq_iff (a b : bool) : (a = true <-> b = true) -> a = b.
Proof. destruct a, b; intuition congruence. Qed.

Lemma coerce_cell_idem (c : cell) : coerce_cell (coerce_cell c) = coerce_cell c.
Proof. destruct c; reflexivity. Qed.

Lemma coerce_idem (df : DataFrame) : coerce (coerce df) = coerce df.
Proof.
  unfold coerce; simpl. f_equal. rewrite map_map. apply map_ext.
  intro r. unfold coerce_row; simpl. now rewrite !coerce_cell_idem.
Qed.

Lemma has_column_coerce (df : DataFrame) (c : string) :
  has_column (coerce df) c = has_column df c.
Proof. reflexivity. Qed.

(** X1. The flag and the error list of a validation result agree: the
    table is valid exactly when no error is reported. *)
Theorem valid_iff_no_error (df : DataFrame) :
  is_valid (fst (validate_dataframe df)) = true
  <-> errors (fst (validate_dataframe df)) = [].
Proof.
  unfold validate_dataframe.
  destruct (filter _ required_cols); simpl.
  - destruct (month_out_of_range (coerce df)), (empty (coerce df)); simpl;
      split; intro H; try reflexivity; discriminate.
  - split; discriminate.
Qed.

(** X2. When required columns are missing the only finding is one error
    that names exactly the missing required columns; no warning is
    given and the table is left as it was, whatever else is wrong with
    it. *)
Theorem missing_columns_reported (df : DataFrame) (c : string) :
  In c required_cols ->
  has_column df c = false ->
  exists cols,
    validate_dataframe df
    = ({| is_valid := false; errors := [MissingColumns cols];
          warnings := [] |}, df)
    /\ forall c', In c' cols <->
                  In c' required_cols /\ has_column df c' = false.
Proof.
  intros Hc Hn. unfold validate_dataframe.
  destruct (filter (fun c => negb (has_column df c)) required_cols)
    as [|c0 l] eqn:E.
  - rewrite missing_cols_nil_iff in E. rewrite (E c Hc) in Hn. discriminate.
  - exists (c0 :: l). split; [reflexivity|]. intro c'. rewrite <- E.
    rewrite filter_In, negb_true_iff. reflexivity.
Qed.

Lemma missing_columns_reported_witness :
  exists cols,
    validate_dataframe df_no_quantity
    = ({| is_valid := false; errors := [MissingColumns cols];
          warnings := [] |}, df_no_quantity)
    /\ forall c', In c' cols <->
                  In c' required_cols /\ has_column df_no_quantity c' = false.
Proof.
  apply (missing_columns_reported df_no_quantity "total_jumlah").
  - simpl. auto.
  - reflexivity.
Defined.

(** X3. A table with the required columns and no row is rejected with
    the single error for an empty table and without any warning: the
    range checks do not fire on empty columns. *)
Theorem empty_table_rejected (df : DataFrame) :
  (forall c, In c required_cols -> has_column df c = true) ->
  records df = [] ->
  fst (validate_dataframe df)
  = {| is_valid := false; errors := [EmptyFrame]; warnings := [] |}.
Proof.
  intros Hc Hr. unfold validate_dataframe.
  apply missing_cols_nil_iff in Hc. rewrite Hc. simpl.
  unfold month_out_of_range, year_out_of_range, any_negative, missing_data,
    empty, col_Bulan, col_Tahun, col_total_jumlah, coerce.
  simpl. rewrite Hr. reflexivity.
Qed.

Lemma empty_table_rejected_witness :
  fst (validate_dataframe (table []))
  = {| is_valid := false; errors := [EmptyFrame]; warnings := [] |}.
Proof.
  apply empty_table_rejected.
  - intros c [<-|[<-|[<-|[<-|[]]]]]; reflexivity.
  - reflexivity.
Defined.

(** X4. Validating again the table that a validation leaves behind gives
    the same result and the same table: the coercion of the numeric
    columns is done once and for all. *)
Theorem validation_idempotent (df : DataFrame) :
  validate_dataframe (snd (validate_dataframe df)) = validate_dataframe df.
Proof.
  unfold validate_dataframe at 2 3.
  destruct (filter (fun c => negb (has_column df c)) required_cols)
    as [|c0 l] eqn:E; simpl.
  - unfold validate_dataframe.
    replace (filter (fun c => negb (has_column (coerce df) c)) required_cols)
      with (@nil string) by (symmetry; exact E).
    simpl. rewrite !coerce_idem. reflexivity.
  - unfold validate_dataframe. rewrite E. reflexivity.
Qed.

Lemma missing_data_perm (l l' : list raw_row) :
  Permutation l l' ->
  fold_right (fun r n => (null_count_row r + n)%nat) 0%nat l
  = fold_right (fun r n => (null_count_row r + n)%nat) 0%nat l'.
Proof.
  induction 1; simpl; lia.
Qed.

(** X5. The findings do not depend on the order of the rows: two tables
    with the same columns whose rows are a permutation of each other
    get the same validity, errors and warnings. *)
Theorem validation_row_order (df df' : DataFrame) :
  columns df = columns df' ->
  Permutation (records df) (records df') ->
  fst (validate_dataframe df) = fst (validate_dataframe df').
Proof.
  intros Hc Hp. unfold validate_dataframe, has_column. rewrite Hc.
  destruct (filter _ required_cols); [|reflexivity]. simpl.
  assert (Hin : forall r, In r (records df) <-> In r (records df')).
  { intro r. split; apply Permutation_in; [exact Hp | now apply Permutation_sym]. }
  assert (Hm : month_out_of_range (coerce df) = month_out_of_range (coerce df')).
  { apply bool_eq_iff. rewrite !month_out_of_range_iff.
    split; intros (r & q & H & H'); exists r, q; (split; [now apply Hin|exact H']). }
  assert (Hy : year_out_of_range (coerce df) = year_out_of_range (coerce df')).
  { apply bool_eq_iff. rewrite !year_out_of_range_iff.
    split; intros (r & q & H & H'); exists r, q; (split; [now apply Hin|exact H']). }
  assert (Hn : any_negative (coerce df) = any_negative (coerce df')).
  { apply bool_eq_iff. rewrite !any_negative_iff.
    split; intros (r & q & H & H'); exists r, q; (split; [now apply Hin|exact H']). }
  assert (He : empty (coerce df) = empty (coerce df')).
  { rewrite !empty_coerce. unfold empty.
    destruct (records df) eqn:E1, (records df') eqn:E2; try reflexivity.
    - apply Permutation_nil in Hp. discriminate.
    - apply Permutation_sym, Permutation_nil in Hp. discriminate. }
  assert (Hd : missing_data (coerce df) = missing_data (coerce df')).
  { unfold missing_data, coerce; simpl. apply missing_data_perm.
    now apply Permutation_map. }
  rewrite Hm, Hy, Hn, He, Hd. reflexivity.
Qed.

Lemma validation_row_order_witness :
  fst (validate_dataframe
         (table [sale 2024 2 "Aqua" (-5); sale 1800 1 "Aqua" 10]))
  = fst (validate_dataframe
           (table [sale 1800 1 "Aqua" 10; sale 2024 2 "Aqua" (-5)])).
Proof.
  apply validation_row_order.
  - reflexivity.
  - apply perm_swap.
Defined.

(* ================================================================= *)
(** * Further properties of the feature builder *)

Lemma Permutation_insert {A : Type} (leb : A -> A -> bool) (x : A) (l : list A) :
  Permutation (insert leb x l) (x :: l).
Proof.
  induction l as [|y t IH]; simpl; [apply Permutation_refl|].
  destruct (leb x y); [apply Permutation_refl|].
  apply perm_trans with (y :: x :: t); [now apply perm_skip | apply perm_swap].
Qed.

Lemma Permutation_sort_values {A : Type} (leb : A -> A -> bool) (l : list A) :
  Permutation (sort_values leb l) l.
Proof.
  induction l as [|x t IH]; simpl; [apply Permutation_refl|].
  apply perm_trans with (x :: sort_values leb t);
    [apply Permutation_insert | now apply perm_skip].
Qed.

Lemma length_add_features (above rows : list period_row) :
  List.length (add_features above rows) = List.length rows.
Proof.
  revert above. induction rows as [|r t IH]; intro above; simpl; [reflexivity|].
  now rewrite IH.
Qed.

Lemma fillna_no_na (r : feature_row) : has_na (fillna r) = false.
Proof.
  unfold has_na, fillna; simpl.
  destruct (Tahun r), (Bulan r), (total_jumlah r), (quarter r),
    (is_start_year r), (is_end_year r), (lag_1 r), (lag_2 r), (lag_3 r),
    (ma_3 r), (ma_6 r), (diff_1 r); reflexivity.
Qed.

Lemma sorted_features (above rows : list period_row) :
  sorted by_key rows ->
  sorted by_row_key (map fillna (add_features above rows)).
Proof.
  intro H. revert above. induction H as [|x l Hx Hl IH]; intro above; simpl.
  - constructor.
  - constructor; [|apply IH].
    intros y Hy. apply In_features in Hy.
    destruct Hy as (pr & Hin & Hn & Hp).
    unfold by_row_key, row_key. simpl. rewrite Hn, Hp. apply (Hx pr Hin).
Qed.

Lemma sorted_before {A : Type} (leb : A -> A -> bool) (l1 l2 : list A) (x : A) :
  sorted leb (l1 ++ x :: l2) -> forall y, In y l1 -> leb y x = true.
Proof.
  induction l1 as [|z t IH]; simpl; intros H y Hy; [destruct Hy|].
  inversion H as [|? ? Hz Ht]; subst. destruct Hy as [<- | Hy].
  - apply Hz. apply in_or_app. right. now left.
  - now apply IH.
Qed.

Section FeatureFacts.
Context {L : Library}.

Lemma create_periode_rows (l : list raw_row) (rows : list period_row) :
  create_periode l = Some rows ->
  List.length rows = List.length l
  /\ forall pr, In pr rows ->
       exists r, In r l /\ with_periode r = Some pr.
Proof.
  revert rows. induction l as [|x t IH]; simpl; intros rows H.
  - inversion H. split; [reflexivity | intros ? []].
  - destruct (with_periode x) as [px|] eqn:Ex; [|discriminate].
    destruct (create_periode t) as [pt|]; [|discriminate].
    inversion H; subst. destruct (IH pt eq_refl) as [Hlen Hin].
    split; [simpl; congruence|].
    intros pr [<- | Hpr].
    + exists x. auto.
    + destruct (Hin pr Hpr) as (r & Hr & Hw). exists r. auto.
Qed.

Lemma prepare_features_table (df : DataFrame) (ft : list feature_row) :
  prepare_features df = Some ft ->
  exists rows,
    create_periode (records (coerce df)) = Some rows
    /\ ft = map fillna (add_features [] (sort_values by_key rows))
    /\ month_out_of_range (coerce df) = false.
Proof.
  intro H. apply prepare_features_valid in H.
  destruct H as (_ & Hm & _ & H). apply build_features_eq in H.
  destruct H as (rows & Hc & E). exists rows. auto.
Qed.

(** The rows of one item, as computed from that item's rows alone. *)
Lemma item_rows (df : DataFrame) (ft : list feature_row) (item : string) :
  prepare_features df = Some ft ->
  exists l,
    filter (is_item item) ft = map fillna (add_features [] l)
    /\ sorted by_key l
    /\ forall r, In r l -> p_Nama_Item r = item.
Proof.
  intro H. apply prepare_features_table in H.
  destruct H as (rows & _ & -> & _).
  exists (filter (fun r => String.eqb (p_Nama_Item r) item)
                 (sort_values by_key rows)).
  split; [|split].
  - now rewrite filter_fillna, filter_add_features.
  - rewrite (filter_sort_values by_key by_key_total by_key_trans).
    apply (sort_values_sorted by_key by_key_total by_key_trans).
  - intros r Hr. apply filter_In in Hr. now apply String.eqb_eq.
Qed.

Lemma item_rows_input (df : DataFrame) (ft : list feature_row) (item : string) :
  prepare_features df = Some ft ->
  exists rows l,
    create_periode (records (coerce df)) = Some rows
    /\ (forall r, In r l -> In r rows)
    /\ filter (is_item item) ft = map fillna (add_features [] l)
    /\ sorted by_key l
    /\ forall r, In r l -> p_Nama_Item r = item.
Proof.
  intro H. apply prepare_features_table in H.
  destruct H as (rows & Hc & -> & _).
  exists rows,
    (filter (fun r => String.eqb (p_Nama_Item r) item)
            (sort_values by_key rows)).
  split; [exact Hc|]. split; [|split; [|split]].
  - intros r Hr. apply filter_In in Hr. destruct Hr as [Hr _].
    now apply In_sort_values in Hr.
  - now rewrite filter_fillna, filter_add_features.
  - rewrite (filter_sort_values by_key by_key_total by_key_trans).
    apply (sort_values_sorted by_key by_key_total by_key_trans).
  - intros r Hr. apply filter_In in Hr. now apply String.eqb_eq.
Qed.

Lemma group_history_all (item : string) (l : list period_row) :
  (forall r, In r l -> p_Nama_Item r = item) ->
  group_history item l = map p_total_jumlah l.
Proof.
  unfold group_history. induction l as [|x t IH]; simpl; intro H;
    [reflexivity|].
  rewrite (H x) by now left. rewrite String.eqb_refl. simpl.
  rewrite IH; [reflexivity|]. intros r Hr. apply H. now right.
Qed.

(** X6. The feature table has one row per input row, none is dropped;
    no cell of it is missing, so [dropna] leaves it unchanged. *)
Theorem feature_table_complete (df : DataFrame) (ft : list feature_row) :
  prepare_features df = Some ft ->
  List.length ft = List.length (records df)
  /\ (forall r, In r ft -> has_na r = false)
  /\ dropna ft = ft.
Proof.
  intro H. apply prepare_features_table in H.
  destruct H as (rows & Hc & -> & _).
  apply create_periode_rows in Hc. destruct Hc as [Hlen _].
  assert (Hna : forall r, In r (map fillna
                                    (add_features [] (sort_values by_key rows)))
                          -> has_na r = false).
  { intros r Hr. apply in_map_iff in Hr. destruct Hr as (x & <- & _).
    apply fillna_no_na. }
  split; [|split; [exact Hna|]].
  - rewrite length_map, length_add_features, length_sort_values, Hlen.
    unfold coerce; simpl. apply length_map.
  - unfold dropna.
    induction (map fillna (add_features [] (sort_values by_key rows)))
      as [|x t IH]; simpl; [reflexivity|].
    rewrite (Hna x) by now left. simpl. f_equal.
    apply IH. intros r Hr. apply Hna. now right.
Qed.

(** X7. The feature table is ordered by item and, within an item, by
    period: every row is ranked before all the rows below it. *)
Theorem feature_table_sorted (df : DataFrame) (ft : list feature_row) :
  prepare_features df = Some ft -> sorted by_row_key ft.
Proof.
  intro H. apply prepare_features_table in H.
  destruct H as (rows & _ & -> & _).
  apply sorted_features.
  apply (sort_values_sorted by_key by_key_total by_key_trans).
Qed.

(** X8. The input columns of the feature table are those of the input
    rows, rearranged: each validated row appears once, with its missing
    numbers replaced by 0. *)
Theorem feature_table_permutation (df : DataFrame) (ft : list feature_row) :
  prepare_features df = Some ft ->
  exists rows,
    create_periode (records (coerce df)) = Some rows
    /\ Permutation (map base_of ft) (map fill_base rows).
Proof.
  intro H. apply prepare_features_table in H.
  destruct H as (rows & Hc & -> & _).
  exists rows. split; [exact Hc|].
  rewrite base_of_features. apply Permutation_map.
  apply Permutation_sort_values.
Qed.

(** X9. Lag chain: two consecutive rows [a], [b] of one item in the
    feature table come from two validated input rows; [b] is not earlier
    than [a], its [lag_1] is the quantity of [a], its [lag_2] and
    [lag_3] are the [lag_1] and [lag_2] of [a], and its [diff_1] is the
    difference of the two input quantities when both are numbers, and 0
    when one of them is missing. *)
Theorem lag_chain (df : DataFrame) (ft g1 g2 : list feature_row)
    (item : string) (a b : feature_row) :
  prepare_features df = Some ft ->
  filter (is_item item) ft = g1 ++ a :: b :: g2 ->
  (periode a <= periode b)%Z
  /\ lag_1 b = total_jumlah a
  /\ lag_2 b = lag_1 a
  /\ lag_3 b = lag_2 a
  /\ exists rows pa pb,
       create_periode (records (coerce df)) = Some rows
       /\ In pa rows /\ In pb rows
       /\ base_of a = fill_base pa /\ base_of b = fill_base pb
       /\ diff_1 b = match p_total_jumlah pb, p_total_jumlah pa with
                     | Num qb, Num qa => Num (qb - qa)
                     | _, _ => Num 0
                     end.
Proof.
  intros H Hg.
  destruct (item_rows_input df ft item H) as (rows & l & Hc & Hsub & E & Hs & Hn).
  rewrite E in Hg. apply map_eq_app in Hg.
  destruct Hg as (f1 & f2 & Hadd & _ & Hrest).
  destruct f2 as [|fa [|fb f2]]; try discriminate.
  simpl in Hrest. injection Hrest as Ha Hb _.
  apply add_features_split in Hadd.
  destruct Hadd as (l1 & pa & l2 & Hl & _ & Hfa & Hpost).
  rewrite app_nil_r in Hfa, Hpost.
  destruct l2 as [|pb l2]; [discriminate|].
  simpl in Hpost. injection Hpost as Hfb _.
  assert (Hina : In pa l).
  { rewrite Hl. apply in_or_app. right. now left. }
  assert (Hinb : In pb l).
  { rewrite Hl. apply in_or_app. right. right. now left. }
  assert (Hna : p_Nama_Item pa = item) by now apply Hn.
  assert (Hnb : p_Nama_Item pb = item) by now apply Hn.
  assert (Hh1 : group_history item (rev l1) = map p_total_jumlah (rev l1)).
  { apply group_history_all. intros r Hr. apply Hn. rewrite Hl.
    apply in_or_app. left. now apply in_rev. }
  assert (Hh2 : group_history item (pa :: rev l1)
                = p_total_jumlah pa :: map p_total_jumlah (rev l1)).
  { rewrite group_history_all; [reflexivity|].
    intros r [<- | Hr]; [exact Hna|]. apply Hn. rewrite Hl.
    apply in_or_app. left. now apply in_rev. }
  rewrite Hna, Hh1 in Hfa. rewrite Hnb, Hh2 in Hfb.
  rewrite <- Ha, <- Hb, Hfa, Hfb. simpl.
  split; [|split; [reflexivity|split; [reflexivity|split; [reflexivity|]]]].
  - rewrite Hl in Hs.
    assert (Hle : by_key pa pb = true).
    { apply (sorted_app_inv by_key l1 (pb :: l2) pa Hs). now left. }
    apply (key_leb_same_item (p_key pa) (p_key pb)); [|exact Hle].
    simpl. congruence.
  - exists rows, pa, pb.
    split; [exact Hc|]. split; [now apply Hsub|]. split; [now apply Hsub|].
    split; [reflexivity|]. split; [reflexivity|].
    unfold diff. simpl.
    destruct (p_total_jumlah pb) as [qb|], (p_total_jumlah pa) as [qa|];
      reflexivity.
Qed.

(** X10. Expanding window: for the first three rows of an item the
    two moving averages coincide, both being the mean of all the
    item's quantities so far. *)
Theorem moving_averages_coincide (df : DataFrame) (ft g1 g2 : list feature_row)
    (item : string) (r : feature_row) :
  prepare_features df = Some ft ->
  filter (is_item item) ft = g1 ++ r :: g2 ->
  (List.length g1 <= 2)%nat ->
  ma_3 r = ma_6 r.
Proof.
  intros H Hg Hlen. destruct (item_rows df ft item H) as (l & E & _ & _).
  rewrite E in Hg. apply map_eq_app in Hg.
  destruct Hg as (f1 & f2 & Hadd & Hg1 & Hrest).
  destruct f2 as [|fr f2]; [discriminate|].
  simpl in Hrest. injection Hrest as Hr _.
  apply add_features_split in Hadd.
  destruct Hadd as (l1 & pr & l2 & _ & Hf1 & Hfr & _).
  rewrite app_nil_r in Hfr.
  assert (Hl1 : (List.length l1 <= 2)%nat).
  { rewrite <- Hg1, length_map, Hf1, length_add_features in Hlen. exact Hlen. }
  assert (Hh : (List.length (group_history (p_Nama_Item pr) (rev l1)) <= 2)%nat).
  { unfold group_history. rewrite length_map.
    pose proof (filter_length_le
                  (fun r => String.eqb (p_Nama_Item r) (p_Nama_Item pr))
                  (rev l1)) as F.
    rewrite length_rev in F. lia. }
  rewrite <- Hr, Hfr. unfold fillna, feature_row_of, rolling_mean.
  cbn [ma_3 ma_6]. rewrite !firstn_all2 by lia. reflexivity.
Qed.
End FeatureFacts.

Lemma In_features_row (above rows : list period_row) (r : feature_row) :
  In r (map fillna (add_features above rows)) ->
  exists pr h, In pr rows /\ r = fillna (feature_row_of h pr).
Proof.
  revert above. induction rows as [|x t IH]; intro above; simpl; [intros []|].
  intros [<- | H].
  - exists x. eexists. split; [now left | reflexivity].
  - destruct (IH _ H) as (pr & h & Hin & E). exists pr, h. auto.
Qed.

Section CalendarFacts.
Context {L : Library}.

Lemma validated_months (df : DataFrame) (ft : list feature_row)
    (r : feature_row) :
  prepare_features df = Some ft ->
  In r ft ->
  exists pr h,
    r = fillna (feature_row_of h pr)
    /\ forall m, p_Bulan pr = Num m -> 1 <= m <= 12.
Proof.
  intros H Hin. apply prepare_features_table in H.
  destruct H as (rows & Hc & -> & Hm).
  apply In_features_row in Hin. destruct Hin as (pr & h & Hpr & E).
  exists pr, h. split; [exact E|]. intros m Hb.
  apply In_sort_values in Hpr.
  apply create_periode_rows in Hc. destruct Hc as [_ Hc].
  destruct (Hc pr Hpr) as (raw & Hraw & Hw).
  unfold coerce in Hraw; simpl in Hraw. apply in_map_iff in Hraw.
  destruct Hraw as (raw0 & <- & Hraw0).
  unfold with_periode in Hw. destruct (to_datetime _ _); [|discriminate].
  inversion Hw; subst; clear Hw. simpl in Hb.
  rewrite to_numeric_coerce in Hb.
  destruct (Qlt_le_dec m 1) as [Hlt|Hge1].
  - assert (month_out_of_range (coerce df) = true); [|congruence].
    apply month_out_of_range_iff. exists raw0, m. auto.
  - destruct (Qlt_le_dec 12 m) as [Hgt|Hle12]; [|split; assumption].
    assert (month_out_of_range (coerce df) = true); [|congruence].
    apply month_out_of_range_iff. exists raw0, m. auto.
Qed.

(** X11. Calendar features: in every row of the feature table the month
    is a number between 1 and 12, the quarter is the integer
    [floor((month - 1) / 3) + 1], between 1 and 4, and the two flags
    tell whether the month is 1, respectively 12; unless the month was
    missing, in which case month, quarter and flags are all 0. *)
Theorem calendar_features (df : DataFrame) (ft : list feature_row)
    (r : feature_row) :
  prepare_features df = Some ft ->
  In r ft ->
  (Bulan r = Num 0 /\ quarter r = Num 0
   /\ is_start_year r = Num 0 /\ is_end_year r = Num 0)
  \/ exists (m : Q) (k : Z),
       Bulan r = Num m /\ 1 <= m <= 12
       /\ quarter r = Num (inject_Z k + 1)
       /\ (0 <= k <= 3)%Z
       /\ inject_Z k * 3 <= m - 1 < (inject_Z k + 1) * 3
       /\ is_start_year r = Num (if Qeq_bool m 1 then 1 else 0)
       /\ is_end_year r = Num (if Qeq_bool m 12 then 1 else 0).
Proof.
  intros H Hin. destruct (validated_months df ft r H Hin) as (pr & h & -> & Hm).
  simpl. destruct (p_Bulan pr) as [m|] eqn:Eb; simpl.
  - right. specialize (Hm m eq_refl).
    exists m, (Qfloor ((m - 1) / 3)).
    pose proof (Qfloor_le ((m - 1) / 3)) as Hlo.
    pose proof (Qlt_floor ((m - 1) / 3)) as Hhi.
    rewrite inject_Z_plus in Hhi. change (inject_Z 1) with 1 in Hhi.
    assert (H0 : (Qfloor 0 <= Qfloor ((m - 1) / 3))%Z).
    { apply Qfloor_resp_le. apply Qle_shift_div_l; lra. }
    assert (H3 : (Qfloor ((m - 1) / 3) <= Qfloor (11 # 3))%Z).
    { apply Qfloor_resp_le. apply Qle_shift_div_r; lra. }
    change (Qfloor 0) with 0%Z in H0. change (Qfloor (11 # 3)) with 3%Z in H3.
    repeat split; try reflexivity; try tauto; try lia.
    + apply (Qmult_le_r _ _ 3) in Hlo; [|lra].
      setoid_replace ((m - 1) / 3 * 3) with (m - 1) in Hlo by field. exact Hlo.
    + apply (Qmult_lt_r _ _ 3) in Hhi; [|lra].
      setoid_replace ((m - 1) / 3 * 3) with (m - 1) in Hhi by field. exact Hhi.
  - left. repeat split; reflexivity.
Qed.
End CalendarFacts.

Lemma feature_table_complete_witness :
  List.length ft_two_items = 5%nat /\ dropna ft_two_items = ft_two_items.
Proof.
  destruct (@feature_table_complete reference_library df_two_items
              ft_two_items) as (H1 & _ & H3).
  - vm_compute. reflexivity.
  - split; [exact H1 | exact H3].
Defined.

Lemma feature_table_sorted_witness : sorted by_row_key ft_two_items.
Proof.
  apply (@feature_table_sorted reference_library df_two_items).
  vm_compute. reflexivity.
Defined.

Lemma feature_table_permutation_witness :
  exists rows,
    @create_periode reference_library (records (coerce df_two_items))
    = Some rows
    /\ Permutation (map base_of ft_two_items) (map fill_base rows).
Proof.
  apply (@feature_table_permutation reference_library df_two_items).
  vm_compute. reflexivity.
Defined.

Lemma lag_chain_witness :
  lag_1 (nth 3 ft_two_items blank_row)
  = total_jumlah (nth 2 ft_two_items blank_row)
  /\ lag_2 (nth 3 ft_two_items blank_row)
     = lag_1 (nth 2 ft_two_items blank_row)
  /\ num_eq (diff_1 (nth 3 ft_two_items blank_row)) (Num 10).
Proof.
  destruct (@lag_chain reference_library df_two_items ft_two_items
              (firstn 2 ft_two_items) [] "Aqua"
              (nth 2 ft_two_items blank_row) (nth 3 ft_two_items blank_row))
    as (_ & H1 & H2 & _ & rows & pa & pb & _ & _ & _ & Ha & Hb & Hd).
  - vm_compute. reflexivity.
  - vm_compute. reflexivity.
  - split; [exact H1|]. split; [exact H2|].
    destruct pa as [ta ba na qa pa'], pb as [tb bb nb qb pb'].
    apply (f_equal p_total_jumlah) in Ha, Hb.
    vm_compute in Ha, Hb. simpl in Hd. rewrite Hd.
    destruct qa as [qa|]; [|discriminate].
    destruct qb as [qb|]; [|discriminate].
    injection Ha as <-. injection Hb as <-. vm_compute. reflexivity.
Defined.

Lemma moving_averages_coincide_witness :
  ma_3 (nth 2 ft_two_items blank_row) = ma_6 (nth 2 ft_two_items blank_row).
Proof.
  apply (@moving_averages_coincide reference_library df_two_items ft_two_items
           (firstn 2 ft_two_items) [nth 3 ft_two_items blank_row] "Aqua").
  - vm_compute. reflexivity.
  - vm_compute. reflexivity.
  - simpl. lia.
Defined.

Lemma calendar_features_witness :
  (Bulan (nth 3 ft_two_items blank_row) = Num 0
   /\ quarter (nth 3 ft_two_items blank_row) = Num 0
   /\ is_start_year (nth 3 ft_two_items blank_row) = Num 0
   /\ is_end_year (nth 3 ft_two_items blank_row) = Num 0)
  \/ exists (m : Q) (k : Z),
       Bulan (nth 3 ft_two_items blank_row) = Num m /\ 1 <= m <= 12
       /\ quarter (nth 3 ft_two_items blank_row) = Num (inject_Z k + 1)
       /\ (0 <= k <= 3)%Z
       /\ inject_Z k * 3 <= m - 1 < (inject_Z k + 1) * 3
       /\ is_start_year (nth 3 ft_two_items blank_row)
          = Num (if Qeq_bool m 1 then 1 else 0)
       /\ is_end_year (nth 3 ft_two_items blank_row)
          = Num (if Qeq_bool m 12 then 1 else 0).
Proof.
  apply (@calendar_features reference_library df_two_items ft_two_items).
  - vm_compute. reflexivity.
  - vm_compute. auto 10.
Defined.

(* ================================================================= *)
(** * Validation and the construction of the period *)

Section SchemaFacts.
Context {L : Library}.

Lemma create_periode_none (l : list raw_row) :
  create_periode l = None <-> exists r, In r l /\ with_periode r = None.
Proof.
  induction l as [|x t IH]; simpl.
  - split; [discriminate | intros (r & [] & _)].
  - destruct (with_periode x) as [px|] eqn:Ex.
    + destruct (create_periode t) as [pt|].
      * split; [discriminate|]. intros (r & [<- | Hr] & Hn); [congruence|].
        destruct IH as [_ IH]. assert (Some pt = None); [|discriminate].
        apply IH. eauto.
      * split; [|reflexivity]. intros _.
        destruct IH as [IH _]. destruct (IH eq_refl) as (r & Hr & Hn).
        exists r. auto.
    + split; [|reflexivity]. intros _. exists x. auto.
Qed.

Lemma with_periode_coerce_none (r : raw_row) :
  with_periode (coerce_row r) = None
  <-> to_datetime (to_numeric (r_Tahun r)) (to_numeric (r_Bulan r)) = None.
Proof.
  unfold with_periode. simpl. rewrite !to_numeric_coerce.
  destruct (to_datetime _ _); split; intro H; try discriminate; reflexivity.
Qed.

(** C6, as the code has it. A table that lacks a required column, or
    has a numeric month outside [1, 12], or has no row, fails validation
    with an error and [prepare_features] produces no feature table.  A
    table with all the columns, at least one row and every numeric month
    in [1, 12] is valid and without error whatever its years, missing
    values and quantities are: these only add warnings.
    [prepare_features] then goes on to build the period, and returns a
    table, with one row per input row, exactly when [pd.to_datetime]
    accepts the year and the month of every row; the quantities play no
    part in that. *)
Theorem schema_rejection (df : DataFrame) :
  ((exists c, In c required_cols /\ has_column df c = false)
   \/ (exists r q, In r (records df) /\ to_numeric (r_Bulan r) = Num q
                   /\ (q < 1 \/ 12 < q))
   \/ records df = []
   -> is_valid (fst (validate_dataframe df)) = false
      /\ errors (fst (validate_dataframe df)) <> []
      /\ prepare_features df = None)
  /\
  ((forall c, In c required_cols -> has_column df c = true) ->
   records df <> [] ->
   (forall r q, In r (records df) -> to_numeric (r_Bulan r) = Num q ->
                1 <= q <= 12) ->
   exists w,
     validate_dataframe df =
       ({| is_valid := true; errors := []; warnings := w |}, coerce df)
     /\ prepare_features df = build_features (coerce df)
     /\ (prepare_features df = None <->
         exists r, In r (records df)
                   /\ to_datetime (to_numeric (r_Tahun r))
                                  (to_numeric (r_Bulan r)) = None)
     /\ (forall ft, prepare_features df = Some ft ->
                    List.length ft = List.length (records df))
     /\ ((exists r, In r (records df)
                    /\ (to_numeric (r_Tahun r) = NaN
                        \/ to_numeric (r_Bulan r) = NaN
                        \/ to_numeric (r_total_jumlah r) = NaN)) ->
         exists n, (0 < n)%nat /\ In (MissingValues n) w)
     /\ (In YearOutOfRange w <->
         exists r q, In r (records df) /\ to_numeric (r_Tahun r) = Num q
                     /\ (q < 1900 \/ 2100 < q))
     /\ (In NegativeSales w <->
         exists r q, In r (records df)
                     /\ to_numeric (r_total_jumlah r) = Num q /\ q < 0)).
Proof.
  split.
  - intros [(c & Hc & Hn) | [Hm | He]].
    + split; [|split; [|now apply (prepare_features_missing_column df c Hc Hn)]];
        unfold validate_dataframe;
        destruct (filter _ required_cols) as [|c' l] eqn:E;
        try (rewrite missing_cols_nil_iff in E; rewrite (E c Hc) in Hn);
        try discriminate; reflexivity.
    + apply month_out_of_range_iff in Hm.
      split; [|split; [|now apply prepare_features_bad_month]];
        unfold validate_dataframe;
        destruct (filter _ required_cols) as [|c' l] eqn:E;
        try discriminate; try reflexivity; simpl; rewrite Hm;
        [reflexivity | discriminate].
    + split; [|split; [|now apply prepare_features_empty]];
        unfold validate_dataframe;
        destruct (filter _ required_cols) as [|c' l] eqn:E;
        try discriminate; try reflexivity; simpl; rewrite empty_coerce;
        unfold empty; rewrite He.
      * now rewrite andb_false_r.
      * destruct (month_out_of_range (coerce df)); discriminate.
  - intros Hc Hr Hm.
    assert (Hmonth : month_out_of_range (coerce df) = false).
    { destruct (month_out_of_range (coerce df)) eqn:E; [|reflexivity].
      apply month_out_of_range_iff in E.
      destruct E as (r & q & Hin & Hq & Hbad).
      specialize (Hm r q Hin Hq). lra. }
    destruct (prepare_features_passes df Hc Hmonth Hr) as [Hv Hp].
    eexists. split; [exact Hv|]. split; [exact Hp|].
    split; [|split; [|split; [|split]]].
    + rewrite Hp. unfold build_features.
      destruct (create_periode (records (coerce df))) as [rows|] eqn:C.
      * split; [discriminate|]. intros (r & Hin & Hn).
        assert (create_periode (records (coerce df)) = None); [|congruence].
        apply create_periode_none. exists (coerce_row r). split.
        -- unfold coerce; simpl. now apply in_map.
        -- now apply with_periode_coerce_none.
      * split; [|reflexivity]. intros _.
        apply create_periode_none in C. destruct C as (r' & Hin & Hn).
        unfold coerce in Hin; simpl in Hin. apply in_map_iff in Hin.
        destruct Hin as (r & <- & Hin). exists r. split; [exact Hin|].
        now apply with_periode_coerce_none.
    + intros ft Hft. rewrite Hp in Hft. apply build_features_eq in Hft.
      destruct Hft as (rows & C & ->).
      apply create_periode_rows in C. destruct C as [Hlen _].
      rewrite length_map, length_add_features, length_sort_values, Hlen.
      unfold coerce; simpl. apply length_map.
    + intro Hmiss. apply missing_data_pos_iff in Hmiss.
      exists (missing_data (coerce df)). split; [exact Hmiss|].
      apply Nat.ltb_lt in Hmiss. rewrite Hmiss. now left.
    + rewrite <- year_out_of_range_iff. split.
      * intro Hin. apply in_app_or in Hin. destruct Hin as [Hin | Hin].
        -- destruct (0 <? missing_data (coerce df))%nat;
             simpl in Hin; intuition discriminate.
        -- destruct (year_out_of_range (coerce df)); [reflexivity|].
           destruct (any_negative (coerce df));
             simpl in Hin; intuition discriminate.
      * intro H. rewrite H. apply in_or_app. right. now left.
    + rewrite <- any_negative_iff. split.
      * intro Hin. apply in_app_or in Hin. destruct Hin as [Hin | Hin].
        -- destruct (0 <? missing_data (coerce df))%nat;
             simpl in Hin; intuition discriminate.
        -- apply in_app_or in Hin. destruct Hin as [Hin | Hin].
           ++ destruct (year_out_of_range (coerce df));
                simpl in Hin; intuition discriminate.
           ++ destruct (any_negative (coerce df)); [reflexivity|].
              destruct Hin.
      * intro H. rewrite H. apply in_or_app. right.
        apply in_or_app. right. now left.
Qed.

End SchemaFacts.

Lemma schema_rejection_witness :
  @prepare_features reference_library df_no_quantity = None
  /\ exists ft,
       @prepare_features reference_library df_advisory = Some ft
       /\ List.length ft = 3%nat.
Proof.
  destruct (@schema_rejection reference_library df_no_quantity) as [Hfatal _].
  destruct (@schema_rejection reference_library df_advisory) as [_ Hadv].
  split.
  - apply Hfatal. left. exists "total_jumlah"%string.
    split; [simpl; auto | reflexivity].
  - destruct Hadv as (w & _ & _ & Hnone & Hlen & _).
    + intros c [<-|[<-|[<-|[<-|[]]]]]; reflexivity.
    + discriminate.
    + intros r q [<-|[<-|[<-|[]]]] H; simpl in H; inversion H; subst;
        split; unfold Qle; simpl; lia.
    + destruct (@prepare_features reference_library df_advisory)
        as [ft|] eqn:E.
      * exists ft. split; [reflexivity|]. now apply Hlen.
      * exfalso. destruct Hnone as [Hnone _].
        destruct (Hnone eq_refl) as (r & Hin & Hn).
        destruct Hin as [<-|[<-|[<-|[]]]]; vm_compute in Hn; discriminate.
Defined.

(** C6 as stated fails: a table whose first row has no year passes
    validation with the missing-values warning only, but the text
    [nan-1-01] is no date, the construction of the period raises and
    [prepare_features] returns no table. *)
Lemma schema_rejection_counterexample :
  validate_dataframe df_missing_year
  = ({| is_valid := true; errors := []; warnings := [MissingValues 1] |},
     coerce df_missing_year)
  /\ @prepare_features reference_library df_missing_year = None.
Proof.
  split; vm_compute; reflexivity.
Qed.

(* ================================================================= *)
(** * Further properties of the forecaster *)

Lemma last_data_split (l : list feature_row) (s : feature_row) :
  In s (last_data l) ->
  exists pre post,
    l = pre ++ s :: post
    /\ forall r, In r post -> Nama_Item r <> Nama_Item s.
Proof.
  induction l as [|x t IH]; simpl; [intros []|].
  destruct (existsb (fun r' => String.eqb (Nama_Item r') (Nama_Item x)) t)
    eqn:E.
  - intro H. destruct (IH H) as (pre & post & -> & Hp).
    exists (x :: pre), post. auto.
  - intros [<- | H].
    + exists [], t. split; [reflexivity|]. intros r Hr Hn.
      assert (existsb (fun r' => String.eqb (Nama_Item r') (Nama_Item x)) t
              = true); [|congruence].
      apply existsb_exists. exists r. split; [exact Hr|].
      now apply String.eqb_eq.
    + destruct (IH H) as (pre & post & -> & Hp).
      exists (x :: pre), post. auto.
Qed.

Lemma last_data_covers (l : list feature_row) (r : feature_row) :
  In r l -> exists s, In s (last_data l) /\ Nama_Item s = Nama_Item r.
Proof.
  revert r. induction l as [|x t IH]; simpl; intro r; [intros []|].
  destruct (existsb (fun r' => String.eqb (Nama_Item r') (Nama_Item x)) t)
    eqn:E.
  - intros [<- | H]; [|now apply IH].
    apply existsb_exists in E. destruct E as (y & Hy & Hn).
    apply String.eqb_eq in Hn. destruct (IH y Hy) as (s & Hs & Hs').
    exists s. split; [exact Hs | congruence].
  - intros [<- | H].
    + exists x. split; [now left | reflexivity].
    + destruct (IH r H) as (s & Hs & Hs').
      exists s. split; [now right | exact Hs'].
Qed.

Lemma run_length_le (s : num) (model : Model) (items : list (Z * feature_row)) :
  (List.length (run s model items) <= List.length items)%nat.
Proof.
  induction items as [|it items IH] using rev_ind; [simpl; lia|].
  rewrite run_snoc, length_app. unfold rollout_step. simpl.
  destruct (predict_row s model (fst it) (snd it) (run s model items));
    [rewrite length_app; simpl|]; lia.
Qed.

Lemma length_work (months : Z) (seeds : list feature_row) :
  List.length (work months seeds)
  = (Z.to_nat months * List.length seeds)%nat.
Proof.
  unfold work, steps. rewrite flat_map_concat_map, map_map.
  generalize 1%nat.
  induction (Z.to_nat months) as [|n IH]; intro a; simpl; [reflexivity|].
  rewrite length_app, length_map, IH. reflexivity.
Qed.

Lemma work_succ (months : Z) (seeds : list feature_row) :
  (0 <= months)%Z ->
  work (months + 1) seeds
  = work months seeds ++ map (pair (months + 1)%Z) seeds.
Proof.
  intro H. unfold work, steps.
  replace (Z.to_nat (months + 1)) with (S (Z.to_nat months)) by lia.
  rewrite seq_S, map_app, flat_map_app. simpl. rewrite app_nil_r.
  do 3 f_equal. lia.
Qed.

Lemma work_first (months : Z) (seeds : list feature_row) (i : Z)
    (row : feature_row) (rest : list (Z * feature_row)) :
  work months seeds = (i, row) :: rest -> i = 1%Z.
Proof.
  unfold work, steps. destruct seeds as [|s0 t].
  - induction (seq 1 (Z.to_nat months)) as [|a l IH]; simpl; [discriminate|].
    exact IH.
  - destruct (Z.to_nat months) as [|n]; simpl; [discriminate|].
    intro H. inversion H. reflexivity.
Qed.

Lemma lag_features_nonempty (i : Z) (row : feature_row)
    (preds : list forecast_row) :
  preds <> [] -> exists lags, lag_features i row preds = Some lags.
Proof.
  intro H. unfold lag_features.
  destruct (i =? 1)%Z; [eauto|].
  destruct preds as [|e l]; [contradiction|].
  destruct (lookup (e :: l) (Nama_Item row) _); eauto.
Qed.

Lemma run_all_succeed (s : num) (model : Model)
    (items : list (Z * feature_row)) :
  (forall x, exists raw rest, model [x] = Some (raw :: rest)) ->
  (forall i row rest, items = (i, row) :: rest -> i = 1%Z) ->
  List.length (run s model items) = List.length items.
Proof.
  intro Hm. induction items as [|[i row] items IH] using rev_ind;
    intro Hfirst; [reflexivity|].
  assert (Hlen : List.length (run s model items) = List.length items).
  { apply IH. intros j r rest E. apply (Hfirst j r (rest ++ [(i, row)])).
    rewrite E. reflexivity. }
  assert (Hlags : exists lags,
             lag_features i row (run s model items) = Some lags).
  { destruct items as [|it0 items'].
    - pose proof (Hfirst i row [] eq_refl) as Hi. subst i.
      eexists. reflexivity.
    - apply lag_features_nonempty. intro E. rewrite E in Hlen.
      simpl in Hlen. discriminate. }
  destruct Hlags as (lags & Hlags).
  rewrite run_snoc. unfold rollout_step, predict_row, step_features. simpl.
  rewrite Hlags.
  destruct (Hm (features_input i row lags)) as (raw & rest & ->).
  rewrite !length_app. simpl. lia.
Qed.

Lemma run_keys (s : num) (model : Model) (items : list (Z * feature_row))
    (e : forecast_row) :
  In e (run s model items) -> In (f_key e) (map key_of_item items).
Proof.
  intro H. apply run_origin in H.
  destruct H as (d1 & i & row & d2 & -> & Hp).
  apply predict_row_some in Hp.
  destruct Hp as (_ & _ & _ & _ & _ & Hn & Hper & _).
  apply in_map_iff. exists (i, row). split.
  - unfold key_of_item, f_key. simpl. congruence.
  - apply in_or_app. right. now left.
Qed.

Lemma run_keys_NoDup (s : num) (model : Model)
    (items : list (Z * feature_row)) :
  NoDup (map key_of_item items) -> NoDup (map f_key (run s model items)).
Proof.
  induction items as [|it items IH] using rev_ind; intro H; [constructor|].
  rewrite map_app in H. simpl in H.
  pose proof (NoDup_remove_2 _ _ _ H) as Hnot. rewrite app_nil_r in Hnot.
  apply NoDup_remove_1 in H. rewrite app_nil_r in H.
  rewrite run_snoc. unfold rollout_step.
  destruct (predict_row s model (fst it) (snd it) (run s model items))
    as [e|] eqn:P; [|now apply IH].
  rewrite map_app. simpl. apply NoDup_app.
  - now apply IH.
  - constructor; [intros []|constructor].
  - intros k Hk [<- | []]. apply Hnot.
    apply predict_row_some in P.
    destruct P as (_ & _ & _ & _ & _ & Hn & Hper & _).
    replace (key_of_item it) with (f_key e).
    + apply in_map_iff in Hk. destruct Hk as (e' & E & He').
      rewrite <- E. now apply run_keys with s model.
    + unfold key_of_item, f_key. congruence.
Qed.

Lemma work_keys_NoDup (months : Z) (df : list feature_row) :
  NoDup (map key_of_item (work months (last_data df))).
Proof.
  apply NoDup_map_NoDup_ForallPairs.
  - intros [i r] [j r'] Hi Hj E. apply In_work in Hi, Hj.
    unfold key_of_item in E. simpl in E. inversion E as [[Hn Hp]].
    assert (r = r') by (apply (last_data_unique df); tauto).
    subst r'. unfold add_months in Hp. f_equal. lia.
  - apply NoDup_work, NoDup_last_data.
Qed.

Lemma by_forecast_key_total (a b : forecast_row) :
  by_forecast_key a b = false -> by_forecast_key b a = true.
Proof. apply key_leb_total. Qed.

Lemma by_forecast_key_trans (a b c : forecast_row) :
  by_forecast_key a b = true -> by_forecast_key b c = true ->
  by_forecast_key a c = true.
Proof. apply key_leb_trans. Qed.

Section ForecastExtras.
Context {L : Library}.

(** X12. The seed rows of a prepared table are the latest rows: every
    row of the table has a seed of its item, and that seed is not
    earlier than the row. *)
Theorem seed_is_latest (df : DataFrame) (ft : list feature_row)
    (r : feature_row) :
  prepare_features df = Some ft ->
  In r ft ->
  exists s,
    In s (last_data ft) /\ Nama_Item s = Nama_Item r
    /\ (periode r <= periode s)%Z.
Proof.
  intros H Hr. destruct (last_data_covers ft r Hr) as (s & Hs & Hn).
  exists s. split; [exact Hs|]. split; [exact Hn|].
  destruct (last_data_split ft s Hs) as (pre & post & E & Hpost).
  apply prepare_features_table in H. destruct H as (rows & _ & Hft & _).
  assert (Hsorted : sorted by_row_key ft).
  { rewrite Hft. apply sorted_features.
    apply (sort_values_sorted by_key by_key_total by_key_trans). }
  rewrite E in Hr, Hsorted. apply in_app_or in Hr.
  destruct Hr as [Hr | [<- | Hr]].
  - pose proof (sorted_before by_row_key pre post s Hsorted r Hr) as Hle.
    apply (key_leb_same_item (row_key r) (row_key s)); [|exact Hle].
    simpl. congruence.
  - lia.
  - exfalso. apply (Hpost r Hr). congruence.
Qed.

(** X14. When the residual spread is a number that is not negative, the
    band of every forecast row encloses the prediction:
    [CI_lower <= prediction <= CI_upper]. *)
Theorem forecast_band_order (df : list feature_row) (model : Model)
    (months : Z) (t : list forecast_row) (r : forecast_row) (sv : Q) :
  predict_future (Some df) (Some model) months = Forecast t ->
  In r t ->
  std_pred df model = Num sv ->
  0 <= sv ->
  exists lo up,
    CI_lower r = Num lo /\ CI_upper r = Num up
    /\ lo <= prediksi_jumlah r <= up.
Proof.
  intros H Hin Hs Hsv.
  destruct (forecast_rows _ _ _ _ _ H Hin) as (i & row & preds & _ & Hp).
  apply predict_row_some in Hp.
  destruct Hp as (x & raw & rest & _ & _ & _ & _ & Hq & Hlo & Hup).
  assert (Hpos : 0 <= prediksi_jumlah r)
    by (rewrite Hq; apply Qpy_max_nonneg).
  rewrite Hs in Hlo, Hup. unfold py_max in Hlo. simpl in Hlo, Hup.
  destruct (Qlt_bool (prediksi_jumlah r - 1.96 * sv) 0) eqn:E;
    eexists; eexists; (split; [exact Hlo|]); (split; [exact Hup|]); lra.
Qed.

(** X15. A forecast is returned only for a horizon of 1 to 12 months and
    a table with rows, and is never empty; each of its rows belongs to
    an item of the table and to one of the [months] months after that
    item's seed row, so there are at most [months] rows per item. *)
Theorem forecast_within_horizon (df : list feature_row) (model : Model)
    (months : Z) (t : list forecast_row) :
  predict_future (Some df) (Some model) months = Forecast t ->
  (1 <= months <= 12)%Z
  /\ df <> [] /\ t <> []
  /\ (List.length t <= Z.to_nat months * List.length (last_data df))%nat
  /\ forall r, In r t ->
       exists seed i,
         In seed (last_data df) /\ (1 <= i <= months)%Z
         /\ f_Nama_Item r = Nama_Item seed
         /\ f_periode r = add_months (periode seed) i.
Proof.
  intro H. pose proof (predict_future_forecast df model months t H)
    as (Hm & Ht & Hne).
  assert (Hrows : forall r, In r t ->
            exists seed i,
              In seed (last_data df) /\ (1 <= i <= months)%Z
              /\ f_Nama_Item r = Nama_Item seed
              /\ f_periode r = add_months (periode seed) i).
  { intros r Hr.
    destruct (forecast_rows _ _ _ _ _ H Hr) as (i & row & preds & Hw & Hp).
    apply In_work in Hw. apply predict_row_some in Hp.
    destruct Hp as (_ & _ & _ & _ & _ & Hn & Hper & _).
    exists row, i. tauto. }
  split; [exact Hm|]. split; [|split; [exact Hne|split; [|exact Hrows]]].
  - intro E. destruct t as [|r t']; [contradiction|].
    destruct (Hrows r (or_introl eq_refl)) as (seed & _ & Hs & _).
    rewrite E in Hs. destruct Hs.
  - rewrite Ht, length_sort_values, <- length_work. apply run_length_le.
Qed.

(** X16. The forecast table holds at most one row per item and month,
    and is ordered by item and month. *)
Theorem forecast_keys_unique (df : list feature_row) (model : Model)
    (months : Z) (t : list forecast_row) :
  predict_future (Some df) (Some model) months = Forecast t ->
  NoDup (map f_key t) /\ sorted by_forecast_key t.
Proof.
  intro H. apply predict_future_forecast in H. destruct H as (_ & -> & _).
  split.
  - apply Permutation_NoDup
      with (map f_key (run (std_pred df model) model
                           (work months (last_data df)))).
    + apply Permutation_map, Permutation_sym, Permutation_sort_values.
    + apply run_keys_NoDup, work_keys_NoDup.
  - apply (sort_values_sorted by_forecast_key by_forecast_key_total
             by_forecast_key_trans).
Qed.

(** X17. When the model answers on every one-row frame, a rollout over a
    table with rows succeeds everywhere: the forecast has exactly one
    row per item and month of the horizon. *)
Theorem forecast_complete (df : list feature_row) (model : Model)
    (months : Z) :
  (forall x, exists raw rest, model [x] = Some (raw :: rest)) ->
  df <> [] ->
  (1 <= months <= 12)%Z ->
  exists t,
    predict_future (Some df) (Some model) months = Forecast t
    /\ List.length t
       = (Z.to_nat months * List.length (last_data df))%nat.
Proof.
  intros Hm Hdf Hmonths.
  assert (Hlen : List.length (run (std_pred df model) model
                                  (work months (last_data df)))
                 = (Z.to_nat months * List.length (last_data df))%nat).
  { rewrite <- length_work. apply run_all_succeed; [exact Hm|].
    intros i row rest. apply work_first. }
  assert (Hseeds : last_data df <> []).
  { destruct df as [|r0 df']; [contradiction|].
    destruct (last_data_covers (r0 :: df') r0 (or_introl eq_refl))
      as (s & Hs & _).
    intro E. rewrite E in Hs. destruct Hs. }
  unfold predict_future.
  replace ((months <=? 0) || (12 <? months))%Z with false
    by (symmetry; apply orb_false_iff; split;
        [apply Z.leb_gt | apply Z.ltb_ge]; lia).
  rewrite rollout_run.
  destruct (run (std_pred df model) model (work months (last_data df)))
    as [|e l] eqn:R.
  - exfalso. simpl in Hlen.
    destruct (last_data df); [contradiction|]. simpl in Hlen. lia.
  - eexists. split; [reflexivity|].
    rewrite length_sort_values. exact Hlen.
Qed.

(** X18. The months already forecast do not depend on the horizon: when
    a forecast for [months] months is returned and [months < 12], the
    forecast for [months + 1] months is returned too and contains every
    row of the shorter one. *)
Theorem forecast_horizon_extends (df : list feature_row) (model : Model)
    (months : Z) (t : list forecast_row) :
  predict_future (Some df) (Some model) months = Forecast t ->
  (months < 12)%Z ->
  exists t',
    predict_future (Some df) (Some model) (months + 1) = Forecast t'
    /\ incl t t'.
Proof.
  intros H Hlt. apply predict_future_forecast in H.
  destruct H as (Hm & -> & Hne).
  set (s := std_pred df model) in *.
  assert (Hincl : forall e, In e (run s model (work months (last_data df))) ->
                            In e (run s model (work (months + 1) (last_data df)))).
  { intros e He. rewrite work_succ by lia. now apply run_app_incl. }
  unfold predict_future.
  replace ((months + 1 <=? 0) || (12 <? months + 1))%Z with false
    by (symmetry; apply orb_false_iff; split;
        [apply Z.leb_gt | apply Z.ltb_ge]; lia).
  rewrite rollout_run. fold s.
  destruct (run s model (work (months + 1) (last_data df))) as [|e l] eqn:R.
  - exfalso.
    destruct (run s model (work months (last_data df))) as [|e0 l0] eqn:R0.
    + apply Hne. reflexivity.
    + apply (Hincl e0). now left.
  - eexists. split; [reflexivity|].
    intros e' He'. apply In_sort_values. apply In_sort_values in He'.
    now apply Hincl.
Qed.

(** X19. When no residual spread is available, because every row of the
    table has a missing value or because the model raises on the
    history, the band of every forecast row collapses onto the
    prediction. *)
Theorem forecast_band_collapses (df : list feature_row) (model : Model)
    (months : Z) (t : list forecast_row) (r : forecast_row) :
  dropna df = [] \/ model (map feature_cols (dropna df)) = None ->
  predict_future (Some df) (Some model) months = Forecast t ->
  In r t ->
  num_eq (CI_lower r) (Num (prediksi_jumlah r))
  /\ num_eq (CI_upper r) (Num (prediksi_jumlah r)).
Proof.
  intros Hno H Hin.
  assert (Hs : std_pred df model = Num 0).
  { unfold std_pred. destruct Hno as [-> | Hno]; [reflexivity|].
    destruct (dropna df); [reflexivity|]. now rewrite Hno. }
  destruct (forecast_rows _ _ _ _ _ H Hin) as (i & row & preds & _ & Hp).
  apply predict_row_some in Hp.
  destruct Hp as (x & raw & rest & _ & _ & _ & _ & Hq & Hlo & Hup).
  assert (Hpos : 0 <= prediksi_jumlah r)
    by (rewrite Hq; apply Qpy_max_nonneg).
  rewrite Hs in Hlo, Hup. rewrite Hlo, Hup. unfold py_max. simpl.
  destruct (Qlt_bool (prediksi_jumlah r - 1.96 * 0) 0) eqn:E; simpl.
  - apply Qlt_bool_iff in E. lra.
  - split; lra.
Qed.
End ForecastExtras.

Lemma seed_is_latest_witness :
  exists s,
    In s (last_data ft_two_items)
    /\ Nama_Item s = Nama_Item (nth 0 ft_two_items blank_row)
    /\ (periode (nth 0 ft_two_items blank_row) <= periode s)%Z.
Proof.
  apply (@seed_is_latest reference_library df_two_items ft_two_items).
  - vm_compute. reflexivity.
  - vm_compute. auto.
Defined.

Lemma forecast_nonneg_witness :
  0 <= prediksi_jumlah (nth 0 fc_three_months aqua_april)
  /\ nonneg (CI_lower (nth 0 fc_three_months aqua_april)).
Proof.
  destruct (@forecast_nonneg reference_library ft_three_months
              (constant_model 3) 2 fc_three_months
              (nth 0 fc_three_months aqua_april)) as [H1 H2].
  - vm_compute. reflexivity.
  - vm_compute. auto.
  - split; [exact H1|]. apply H2. vm_compute. discriminate.
Defined.

Lemma forecast_band_order_witness :
  exists lo up,
    CI_lower (nth 0 fc_three_months aqua_april) = Num lo
    /\ CI_upper (nth 0 fc_three_months aqua_april) = Num up
    /\ lo <= prediksi_jumlah (nth 0 fc_three_months aqua_april) <= up.
Proof.
  apply (@forecast_band_order reference_library ft_three_months
           (constant_model 3) 2 fc_three_months _ 1).
  - vm_compute. reflexivity.
  - vm_compute. auto.
  - vm_compute. reflexivity.
  - lra.
Defined.

Lemma forecast_within_horizon_witness :
  (List.length fc_three_months
   <= Z.to_nat 2 * List.length (last_data ft_three_months))%nat.
Proof.
  destruct (@forecast_within_horizon reference_library ft_three_months
              (constant_model 3) 2 fc_three_months) as (_ & _ & _ & H & _).
  - vm_compute. reflexivity.
  - exact H.
Defined.

Lemma forecast_keys_unique_witness :
  NoDup (map f_key fc_three_months) /\ sorted by_forecast_key fc_three_months.
Proof.
  apply (@forecast_keys_unique reference_library ft_three_months
           (constant_model 3) 2).
  vm_compute. reflexivity.
Defined.

Lemma forecast_complete_witness :
  exists t,
    @predict_future reference_library (Some ft_two_items)
      (Some (constant_model 3)) 3 = Forecast t
    /\ List.length t = (Z.to_nat 3 * List.length (last_data ft_two_items))%nat.
Proof.
  apply forecast_complete.
  - intro x. exists 3, []. reflexivity.
  - discriminate.
  - lia.
Defined.

Lemma forecast_horizon_extends_witness :
  exists t',
    @predict_future reference_library (Some ft_three_months)
      (Some (constant_model 3)) (2 + 1) = Forecast t'
    /\ incl fc_three_months t'.
Proof.
  apply forecast_horizon_extends.
  - vm_compute. reflexivity.
  - lia.
Defined.

Lemma forecast_band_collapses_witness :
  num_eq (CI_lower (nth 0 fc_history_shy aqua_april))
         (Num (prediksi_jumlah (nth 0 fc_history_shy aqua_april)))
  /\ num_eq (CI_upper (nth 0 fc_history_shy aqua_april))
            (Num (prediksi_jumlah (nth 0 fc_history_shy aqua_april))).
Proof.
  apply (@forecast_band_collapses reference_library ft_three_months
           history_shy_model 1 fc_history_shy).
  - right. vm_compute. reflexivity.
  - vm_compute. reflexivity.
  - vm_compute. auto.
Defined.

(* ================================================================= *)
(** * Loading and the dashboard's session *)

Section LoadFacts.
Context {L : Library}.

(** Validation followed by [prepare_features] on the coerced table is
    [prepare_features] on the table itself. *)
Lemma validate_then_prepare (df : DataFrame) :
  (let (validation, df') := validate_dataframe df in
   if is_valid validation then prepare_features df' else None)
  = prepare_features df.
Proof.
  unfold prepare_features at 2. unfold validate_dataframe at 1 2.
  destruct (filter (fun c => negb (has_column df c)) required_cols)
    as [|c0 l] eqn:E; [|reflexivity].
  simpl.
  destruct (negb (month_out_of_range (coerce df)) && negb (empty (coerce df)))
    eqn:V; simpl; [|reflexivity].
  unfold prepare_features, validate_dataframe.
  replace (filter (fun c => negb (has_column (coerce df) c)) required_cols)
    with (@nil string) by (symmetry; exact E).
  simpl. rewrite !coerce_idem, V. reflexivity.
Qed.

(** X20. [load_data] returns exactly what [prepare_features] returns on
    the table read from the file, the validation made first changes
    nothing; and it returns nothing when the read raises. *)
Theorem load_data_result (file : csv_read) :
  load_data file
  = match file with
    | Loaded df => prepare_features df
    | FileNotFound | EmptyData | ParserError | OtherReadError => None
    end.
Proof.
  destruct file as [| | | |df]; try reflexivity.
  rewrite <- (validate_then_prepare df). unfold load_data.
  destruct (validate_dataframe df) as [v df'].
  destruct (is_valid v); reflexivity.
Qed.

(** X21. After one run of the dashboard the session always holds the
    data key.  An upload that [prepare_features] accepts replaces the
    table and marks the source as uploaded; any other upload, or none,
    leaves a table already in the session and its source untouched, and
    only when the session has none is the default file loaded. *)
Theorem dashboard_data_outcome (uploaded_file : option csv_read)
    (data_csv : csv_read) (st : session) :
  let st' := dashboard_data uploaded_file data_csv st in
  let accepted :=
    match uploaded_file with
    | Some (Loaded df) => prepare_features df
    | _ => None
    end in
  match accepted, uploaded_df st with
  | Some ft, _ =>
      uploaded_df st' = Some (Some ft)
      /\ data_source st' = Some "uploaded"%string
      /\ dashboard_loaded st' = false
  | None, Some previous =>
      st' = st
  | None, None =>
      uploaded_df st' = Some (load_data data_csv)
      /\ data_source st' = Some "default"%string
      /\ dashboard_loaded st' = dashboard_loaded st
  end.
Proof.
  unfold dashboard_data.
  assert (Hkeep : forall s,
             match uploaded_df s with
             | Some previous => ensure_data data_csv s = s
             | None =>
                 uploaded_df (ensure_data data_csv s)
                 = Some (load_data data_csv)
                 /\ data_source (ensure_data data_csv s)
                    = Some "default"%string
                 /\ dashboard_loaded (ensure_data data_csv s)
                    = dashboard_loaded s
             end).
  { intro s. unfold ensure_data.
    destruct (uploaded_df s); [reflexivity | simpl; auto]. }
  destruct uploaded_file as [[| | | |df]|]; simpl; try apply Hkeep.
  rewrite <- (validate_then_prepare df).
  destruct (validate_dataframe df) as [v df'].
  destruct (is_valid v); [|apply Hkeep].
  destruct (prepare_features df') as [ft|]; [|apply Hkeep].
  unfold ensure_data. simpl. auto.
Qed.
End LoadFacts.

(* ================================================================= *)
(** * Stock recommendation *)

Lemma round_half_even_cases (q : Q) :
  round_half_even q = Qfloor q \/ round_half_even q = (Qfloor q + 1)%Z.
Proof.
  unfold round_half_even.
  destruct (Qcompare (q - inject_Z (Qfloor q)) (1 # 2)); auto.
  destruct (Z.even (Qfloor q)); auto.
Qed.

Lemma round_half_even_bounds (q : Q) :
  q - (1 # 2) <= inject_Z (round_half_even q) <= q + (1 # 2).
Proof.
  pose proof (Qfloor_le q) as Hlo. pose proof (Qlt_floor q) as Hhi.
  rewrite inject_Z_plus in Hhi. change (inject_Z 1) with 1 in Hhi.
  unfold round_half_even.
  destruct (Qcompare_spec (q - inject_Z (Qfloor q)) (1 # 2)) as [E|E|E].
  - destruct (Z.even (Qfloor q)).
    + lra.
    + rewrite inject_Z_plus. change (inject_Z 1) with 1. lra.
  - lra.
  - rewrite inject_Z_plus. change (inject_Z 1) with 1. lra.
Qed.

Lemma round_half_even_mono (a b : Q) :
  a <= b -> (round_half_even a <= round_half_even b)%Z.
Proof.
  intro H. pose proof (Qfloor_resp_le a b H) as Hf.
  destruct (Z.eq_dec (Qfloor a) (Qfloor b)) as [E|E].
  - unfold round_half_even. rewrite E.
    destruct (Qcompare_spec (a - inject_Z (Qfloor b)) (1 # 2)) as [Ea|Ea|Ea];
      destruct (Qcompare_spec (b - inject_Z (Qfloor b)) (1 # 2)) as [Eb|Eb|Eb];
      try (exfalso; lra); try lia;
      destruct (Z.even (Qfloor b)); lia.
  - destruct (round_half_even_cases a) as [-> | ->];
      destruct (round_half_even_cases b) as [-> | ->]; lia.
Qed.

Lemma round_half_even_Z (z : Z) : round_half_even (inject_Z z) = z.
Proof.
  unfold round_half_even. rewrite Qfloor_Z.
  destruct (Qcompare_spec (inject_Z z - inject_Z z) (1 # 2)) as [E|E|E];
    try reflexivity; exfalso; lra.
Qed.

Lemma clip_lower_spec (x : Q) :
  0 <= clip_lower 0 x /\ x <= clip_lower 0 x
  /\ (x <= 0 -> clip_lower 0 x == 0) /\ (0 <= x -> clip_lower 0 x == x).
Proof.
  unfold clip_lower. destruct (Qlt_bool x 0) eqn:E.
  - apply Qlt_bool_iff in E. repeat split; intros; lra.
  - apply Qlt_bool_false in E. repeat split; intros; lra.
Qed.

(** X22. Every recommended quantity is a non-negative integer; it is 0
    when the stock entered already covers prediction times factor, and
    otherwise stock plus recommendation reaches prediction times factor
    up to the rounding, that is within one half. *)
Theorem recommendation_covers_demand (future_df : list forecast_row)
    (selected_item : string) (stok : Z) (safety_factor : Q) :
  Forall
    (fun s =>
       (0 <= rekomendasi_stok s)%Z
       /\ (s_prediksi_jumlah s * safety_factor <= inject_Z stok ->
           rekomendasi_stok s = 0%Z)
       /\ s_prediksi_jumlah s * safety_factor - (1 # 2)
          <= inject_Z (stok + rekomendasi_stok s)
       /\ (inject_Z stok <= s_prediksi_jumlah s * safety_factor ->
           inject_Z (stok + rekomendasi_stok s)
           <= s_prediksi_jumlah s * safety_factor + (1 # 2)))
    (recommend future_df selected_item stok safety_factor).
Proof.
  unfold recommend. apply Forall_forall. intros s Hs.
  apply in_map_iff in Hs. destruct Hs as (r & <- & _). simpl.
  set (x := prediksi_jumlah r * safety_factor - inject_Z stok).
  destruct (clip_lower_spec x) as (H0 & Hx & Hneg & Hpos).
  pose proof (round_half_even_bounds (clip_lower 0 x)) as [Hlo Hhi].
  pose proof (round_half_even_mono 0 (clip_lower 0 x) H0) as Hm.
  change 0 with (inject_Z 0) in Hm at 1. rewrite round_half_even_Z in Hm.
  rewrite inject_Z_plus.
  split; [exact Hm|]. split; [|split].
  - intro Hc. assert (Hz : clip_lower 0 x == 0) by (apply Hneg; unfold x; lra).
    assert (Hr : (round_half_even (clip_lower 0 x) <= round_half_even 0)%Z)
      by (apply round_half_even_mono; lra).
    change 0 with (inject_Z 0) in Hr at 2. rewrite round_half_even_Z in Hr.
    lia.
  - unfold x in *. lra.
  - intro Hc. assert (clip_lower 0 x == x) by (apply Hpos; unfold x; lra).
    unfold x in *. lra.
Qed.

(** X23. The more stock is entered, the less is recommended: row by row
    the recommendation for a larger stock is not larger. *)
Theorem recommendation_monotone (future_df : list forecast_row)
    (selected_item : string) (stok stok' : Z) (safety_factor : Q) :
  (stok <= stok')%Z ->
  Forall2 (fun s s' => (rekomendasi_stok s' <= rekomendasi_stok s)%Z
                       /\ s_periode s' = s_periode s
                       /\ safety_stock s' = safety_stock s)
          (recommend future_df selected_item stok safety_factor)
          (recommend future_df selected_item stok' safety_factor).
Proof.
  intro H. unfold recommend.
  induction (filter (fun r => String.eqb (f_Nama_Item r) selected_item)
                    future_df) as [|r t IH]; simpl; constructor; [|exact IH].
  simpl. split; [|split; reflexivity].
  apply round_half_even_mono.
  set (p := prediksi_jumlah r * safety_factor).
  assert (Hs : inject_Z stok <= inject_Z stok') by (rewrite <- Zle_Qle; exact H).
  destruct (clip_lower_spec (p - inject_Z stok)) as (A0 & A1 & A2 & A3).
  destruct (clip_lower_spec (p - inject_Z stok')) as (B0 & B1 & B2 & B3).
  destruct (Qlt_le_dec (p - inject_Z stok') 0) as [Hn | Hp].
  - rewrite B2 by lra. exact A0.
  - rewrite B3 by lra. lra.
Qed.

Lemma recommendation_monotone_witness :
  Forall2 (fun s s' => (rekomendasi_stok s' <= rekomendasi_stok s)%Z
                       /\ s_periode s' = s_periode s
                       /\ safety_stock s' = safety_stock s)
          (recommend fc_three_months "Aqua" 0 1.1)
          (recommend fc_three_months "Aqua" 2 1.1).
Proof.
  apply recommendation_monotone. lia.
Defined.

Section StockFacts.
Context {L : Library}.

(** X24. For a forecast returned by [predict_future] and a factor of the
    slider, between 1 and 2, the safety stock of every row is a
    non-negative integer, at most the prediction up to the rounding,
    and it is 0 for the factor 1. *)
Theorem safety_stock_bounds (df : list feature_row) (model : Model)
    (months : Z) (t : list forecast_row) (selected_item : string)
    (stok : Z) (safety_factor : Q) (s : stock_row) :
  predict_future (Some df) (Some model) months = Forecast t ->
  1 <= safety_factor <= 2 ->
  In s (recommend t selected_item stok safety_factor) ->
  (0 <= safety_stock s)%Z
  /\ inject_Z (safety_stock s) <= s_prediksi_jumlah s + (1 # 2)
  /\ (safety_factor == 1 -> safety_stock s = 0%Z).
Proof.
  intros H Hf Hs. unfold recommend in Hs. apply in_map_iff in Hs.
  destruct Hs as (r & <- & Hr). apply filter_In in Hr. destruct Hr as [Hr _].
  destruct (forecast_rows _ _ _ _ _ H Hr) as (i & row & preds & _ & Hp).
  apply predict_row_some in Hp.
  destruct Hp as (_ & raw & _ & _ & _ & _ & _ & Hq & _).
  assert (Hpos : 0 <= prediksi_jumlah r)
    by (rewrite Hq; apply Qpy_max_nonneg).
  simpl. set (x := prediksi_jumlah r * (safety_factor - 1)).
  assert (Hx : 0 <= x) by (unfold x; nra).
  assert (Hx' : x <= prediksi_jumlah r) by (unfold x; nra).
  pose proof (round_half_even_mono 0 x Hx) as Hm.
  change 0 with (inject_Z 0) in Hm at 1. rewrite round_half_even_Z in Hm.
  pose proof (round_half_even_bounds x) as [_ Hhi].
  split; [exact Hm|]. split; [lra|].
  intro E.
  assert (Hz : x == 0) by (unfold x; rewrite E; ring).
  assert (Hr0 : (round_half_even x <= round_half_even 0)%Z)
    by (apply round_half_even_mono; lra).
  change 0 with (inject_Z 0) in Hr0 at 1. rewrite round_half_even_Z in Hr0.
  lia.
Qed.
End StockFacts.

Lemma safety_stock_bounds_witness :
  Forall (fun s => (0 <= safety_stock s)%Z)
         (recommend fc_three_months "Aqua" 0 1.1).
Proof.
  apply Forall_forall. intros s Hs.
  destruct (@safety_stock_bounds reference_library ft_three_months
              (constant_model 3) 2 fc_three_months "Aqua" 0 1.1 s)
    as (H & _).
  - vm_compute. reflexivity.
  - lra.
  - exact Hs.
  - exact H.
Defined.

(* ================================================================= *)
(** * The dashboard's validation summary *)

Lemma has_Num_dec (l : list num) :
  (exists q, In (Num q) l) \/ (forall q, ~ In (Num q) l).
Proof.
  induction l as [|x t IH].
  - right. intros q [].
  - destruct x as [a|].
    + left. exists a. now left.
    + destruct IH as [(q & Hq) | Hno].
      * left. exists q. now right.
      * right. intros q [E | Hq]; [discriminate | now apply (Hno q)].
Qed.

Lemma series_min_nan (l : list num) :
  (forall q, ~ In (Num q) l) -> series_min l = NaN.
Proof.
  induction l as [|x t IH]; simpl; intro H; [reflexivity|].
  destruct x as [a|].
  - exfalso. apply (H a). now left.
  - apply IH. intros q Hq. apply (H q). now right.
Qed.

Lemma series_max_nan (l : list num) :
  (forall q, ~ In (Num q) l) -> series_max l = NaN.
Proof.
  induction l as [|x t IH]; simpl; intro H; [reflexivity|].
  destruct x as [a|].
  - exfalso. apply (H a). now left.
  - apply IH. intros q Hq. apply (H q). now right.
Qed.

Lemma series_min_some (l : list num) (q : Q) :
  In (Num q) l -> exists m, series_min l = Num m.
Proof.
  induction l as [|x t IH]; simpl; [intros []|].
  intros [-> | H].
  - destruct (series_min t); eauto.
  - destruct (IH H) as (m & ->). destruct x; eauto.
Qed.

Lemma series_max_some (l : list num) (q : Q) :
  In (Num q) l -> exists m, series_max l = Num m.
Proof.
  induction l as [|x t IH]; simpl; [intros []|].
  intros [-> | H].
  - destruct (series_max t); eauto.
  - destruct (IH H) as (m & ->). destruct x; eauto.
Qed.

Lemma series_min_ge (l : list num) (c : Q) :
  nle (Num c) (series_min l) = true <->
  (exists q, In (Num q) l) /\ forall q, In (Num q) l -> c <= q.
Proof.
  pose proof (series_min_lt l c) as Hlt.
  destruct (has_Num_dec l) as [(q0 & Hq0) | Hno].
  - destruct (series_min_some l q0 Hq0) as (m & E). rewrite E in *.
    unfold nle, nlt in *. rewrite Qlt_bool_iff in Hlt. rewrite Qle_bool_iff.
    split.
    + intro H. split; [eauto|]. intros q Hq. apply Qnot_lt_le. intro Hc.
      assert (m < c) by (apply Hlt; eauto). lra.
    + intros [_ H]. apply Qnot_lt_le. intro Hc. apply Hlt in Hc.
      destruct Hc as (q & Hq & Hqc). specialize (H q Hq). lra.
  - rewrite (series_min_nan l Hno). simpl. split; [discriminate|].
    intros [(q & Hq) _]. exfalso. apply (Hno q Hq).
Qed.

Lemma series_max_le (l : list num) (c : Q) :
  nle (series_max l) (Num c) = true <->
  (exists q, In (Num q) l) /\ forall q, In (Num q) l -> q <= c.
Proof.
  pose proof (series_max_gt l c) as Hgt.
  destruct (has_Num_dec l) as [(q0 & Hq0) | Hno].
  - destruct (series_max_some l q0 Hq0) as (m & E). rewrite E in *.
    unfold nle, nlt in *. rewrite Qlt_bool_iff in Hgt. rewrite Qle_bool_iff.
    split.
    + intro H. split; [eauto|]. intros q Hq. apply Qnot_lt_le. intro Hc.
      assert (c < m) by (apply Hgt; eauto). lra.
    + intros [_ H]. apply Qnot_lt_le. intro Hc. apply Hgt in Hc.
      destruct Hc as (q & Hq & Hqc). specialize (H q Hq). lra.
  - rewrite (series_max_nan l Hno). simpl. split; [discriminate|].
    intros [(q & Hq) _]. exfalso. apply (Hno q Hq).
Qed.

Lemma In_features_of (above rows : list period_row) (pr : period_row) :
  In pr rows ->
  exists h, In (fillna (feature_row_of h pr))
               (map fillna (add_features above rows)).
Proof.
  revert above. induction rows as [|x t IH]; intro above; simpl; [intros []|].
  intros [-> | H].
  - eexists. left. reflexivity.
  - destruct (IH (x :: above) H) as (h & Hh). exists h. now right.
Qed.

Section SummaryFacts.
Context {L : Library}.

Lemma create_periode_covers (l : list raw_row) (rows : list period_row) :
  create_periode l = Some rows ->
  forall r, In r l -> exists pr, In pr rows /\ with_periode r = Some pr.
Proof.
  revert rows. induction l as [|x t IH]; simpl; intros rows H r Hr;
    [destruct Hr|].
  destruct (with_periode x) as [px|] eqn:Ex; [|discriminate].
  destruct (create_periode t) as [pt|]; [|discriminate].
  inversion H; subst. destruct Hr as [<- | Hr].
  - exists px. split; [now left | exact Ex].
  - destruct (IH pt eq_refl r Hr) as (pr & Hin & Hw).
    exists pr. split; [now right | exact Hw].
Qed.

Lemma with_periode_cells (r : raw_row) (pr : period_row) (h : list num) :
  with_periode (coerce_row r) = Some pr ->
  cells_of_row (fillna (feature_row_of h pr)) = cells_of_record r.
Proof.
  unfold with_periode. destruct (to_datetime _ _); [|discriminate].
  intro H. inversion H; subst; clear H.
  unfold cells_of_row, cells_of_record. simpl.
  now rewrite !to_numeric_coerce.
Qed.

(** The numeric input cells of the feature table are those of the input
    rows after [fillna]. *)
Lemma feature_cells (df : DataFrame) (ft : list feature_row)
    (c : num * num * num) :
  prepare_features df = Some ft ->
  (In c (map cells_of_row ft) <-> In c (map cells_of_record (records df))).
Proof.
  intro H. apply prepare_features_table in H.
  destruct H as (rows & Hc & -> & _). split.
  - rewrite in_map_iff. intros (fr & <- & Hfr).
    apply In_features_row in Hfr. destruct Hfr as (pr & h & Hpr & ->).
    apply In_sort_values in Hpr.
    destruct (create_periode_rows _ _ Hc) as [_ Hrows].
    destruct (Hrows pr Hpr) as (raw & Hraw & Hw).
    unfold coerce in Hraw; simpl in Hraw. apply in_map_iff in Hraw.
    destruct Hraw as (raw0 & <- & Hraw0).
    rewrite (with_periode_cells raw0 pr h Hw). now apply in_map.
  - rewrite in_map_iff. intros (raw0 & <- & Hraw0).
    assert (Hraw : In (coerce_row raw0) (records (coerce df)))
      by (unfold coerce; simpl; now apply in_map).
    destruct (create_periode_covers _ _ Hc _ Hraw) as (pr & Hpr & Hw).
    apply (In_sort_values by_key) in Hpr.
    destruct (In_features_of [] _ pr Hpr) as (h & Hh).
    rewrite <- (with_periode_cells raw0 pr h Hw). now apply in_map.
Qed.

(** X25. On a table that [prepare_features] returned, the summary of the
    dashboard always reports data that is not empty and columns that
    are available.  It reports a valid year range exactly when every
    input year is a number in [1900, 2100], a valid month range exactly
    when no input month is missing (a missing month passes validation
    but shows as 0 in the table), and negative sales exactly when some
    input quantity is a negative number. *)
Theorem dashboard_summary (df : DataFrame) (ft : list feature_row) :
  prepare_features df = Some ft ->
  exists y m n,
    validation_status ft = [DataNotEmpty; ColumnsAvailable; y; m; n]
    /\ (y = YearRangeValid <->
        forall r, In r (records df) ->
          exists q, to_numeric (r_Tahun r) = Num q /\ 1900 <= q <= 2100)
    /\ (m = MonthRangeValid <->
        forall r, In r (records df) -> to_numeric (r_Bulan r) <> NaN)
    /\ (n = NegativeSalesPresent <->
        exists r q, In r (records df)
                    /\ to_numeric (r_total_jumlah r) = Num q /\ q < 0).
Proof.
  intro H.
  pose proof (prepare_features_valid df ft H) as (_ & Hmonth & Hne & _).
  assert (Hcells : forall c, In c (map cells_of_row ft)
                             <-> In c (map cells_of_record (records df)))
    by (intro c; now apply feature_cells).
  assert (HT : forall x, In x (map Tahun ft) <->
                 exists r, In r (records df)
                           /\ x = fill0 (to_numeric (r_Tahun r))).
  { intro x. split.
    - rewrite in_map_iff. intros (fr & <- & Hfr).
      assert (Hc : In (cells_of_row fr) (map cells_of_record (records df)))
        by (apply Hcells; now apply in_map).
      apply in_map_iff in Hc. destruct Hc as (r & E & Hr).
      exists r. split; [exact Hr|]. now inversion E.
    - intros (r & Hr & ->).
      assert (Hc : In (cells_of_record r) (map cells_of_row ft))
        by (apply Hcells; now apply in_map).
      apply in_map_iff in Hc. destruct Hc as (fr & E & Hfr).
      apply in_map_iff. exists fr. split; [now inversion E | exact Hfr]. }
  assert (HB : forall x, In x (map Bulan ft) <->
                 exists r, In r (records df)
                           /\ x = fill0 (to_numeric (r_Bulan r))).
  { intro x. split.
    - rewrite in_map_iff. intros (fr & <- & Hfr).
      assert (Hc : In (cells_of_row fr) (map cells_of_record (records df)))
        by (apply Hcells; now apply in_map).
      apply in_map_iff in Hc. destruct Hc as (r & E & Hr).
      exists r. split; [exact Hr|]. now inversion E.
    - intros (r & Hr & ->).
      assert (Hc : In (cells_of_record r) (map cells_of_row ft))
        by (apply Hcells; now apply in_map).
      apply in_map_iff in Hc. destruct Hc as (fr & E & Hfr).
      apply in_map_iff. exists fr. split; [now inversion E | exact Hfr]. }
  assert (HQ : forall x, In x (map total_jumlah ft) <->
                 exists r, In r (records df)
                           /\ x = fill0 (to_numeric (r_total_jumlah r))).
  { intro x. split.
    - rewrite in_map_iff. intros (fr & <- & Hfr).
      assert (Hc : In (cells_of_row fr) (map cells_of_record (records df)))
        by (apply Hcells; now apply in_map).
      apply in_map_iff in Hc. destruct Hc as (r & E & Hr).
      exists r. split; [exact Hr|]. now inversion E.
    - intros (r & Hr & ->).
      assert (Hc : In (cells_of_record r) (map cells_of_row ft))
        by (apply Hcells; now apply in_map).
      apply in_map_iff in Hc. destruct Hc as (fr & E & Hfr).
      apply in_map_iff. exists fr. split; [now inversion E | exact Hfr]. }
  assert (Hex0 : exists r0, In r0 (records df)).
  { destruct (records df) as [|r0 t] eqn:R; [now elim Hne|].
    exists r0. now left. }
  destruct Hex0 as (r0 & Hr0).
  assert (Hft : ft <> []).
  { assert (Hc : In (cells_of_record r0) (map cells_of_row ft))
      by (apply Hcells; now apply in_map).
    intro E. rewrite E in Hc. destruct Hc. }
  exists (if nle (Num 1900) (series_min (map Tahun ft))
             && nle (series_max (map Tahun ft)) (Num 2100)
          then YearRangeValid else YearRangeSuspect),
         (if nle (Num 1) (series_min (map Bulan ft))
             && nle (series_max (map Bulan ft)) (Num 12)
          then MonthRangeValid else MonthRangeInvalid),
         (if existsb (fun x => nlt x (Num 0)) (map total_jumlah ft)
          then NegativeSalesPresent else SalesAllPositive).
  split; [unfold validation_status; destruct ft; [contradiction|reflexivity]|].
  split; [|split].
  - set (b := nle (Num 1900) (series_min (map Tahun ft))
              && nle (series_max (map Tahun ft)) (Num 2100)).
    assert (Hb : b = true <->
              forall r, In r (records df) ->
                exists q, to_numeric (r_Tahun r) = Num q /\ 1900 <= q <= 2100).
    { unfold b. rewrite andb_true_iff, series_min_ge, series_max_le. split.
      - intros [[_ Hlo] [_ Hhi]] r Hr.
        destruct (to_numeric (r_Tahun r)) as [q|] eqn:E.
        + assert (In (Num q) (map Tahun ft))
            by (apply HT; exists r; rewrite E; auto).
          exists q. split; [reflexivity|]. split; auto.
        + assert (Hz : In (Num 0) (map Tahun ft))
            by (apply HT; exists r; rewrite E; auto).
          apply Hlo in Hz. lra.
      - intro Hall.
        assert (Hex : exists q, In (Num q) (map Tahun ft)).
        { destruct (Hall r0 Hr0) as (q & E & _). exists q. apply HT.
          exists r0. rewrite E. auto. }
        assert (Hin : forall q, In (Num q) (map Tahun ft) -> 1900 <= q <= 2100).
        { intros q Hq. apply HT in Hq. destruct Hq as (r & Hr & E).
          destruct (Hall r Hr) as (q' & E' & Hq'). rewrite E' in E.
          simpl in E. inversion E; subst. exact Hq'. }
        split; (split; [exact Hex|]); intros q Hq; apply Hin in Hq; tauto. }
    destruct b; split; intro Hx; try reflexivity; try discriminate.
    + now apply Hb.
    + apply Hb in Hx. discriminate.
  - set (b := nle (Num 1) (series_min (map Bulan ft))
              && nle (series_max (map Bulan ft)) (Num 12)).
    assert (Hb : b = true <->
              forall r, In r (records df) -> to_numeric (r_Bulan r) <> NaN).
    { unfold b. rewrite andb_true_iff, series_min_ge, series_max_le. split.
      - intros [[_ Hlo] _] r Hr E.
        assert (Hz : In (Num 0) (map Bulan ft))
          by (apply HB; exists r; rewrite E; auto).
        apply Hlo in Hz. lra.
      - intro Hall.
        assert (Hnum : forall r, In r (records df) ->
                  exists q, to_numeric (r_Bulan r) = Num q /\ 1 <= q <= 12).
        { intros r Hr. destruct (to_numeric (r_Bulan r)) as [q|] eqn:E;
            [|exfalso; now apply (Hall r Hr)].
          exists q. split; [reflexivity|].
          destruct (Qlt_le_dec q 1) as [Hlt|Hge].
          - assert (month_out_of_range (coerce df) = true); [|congruence].
            apply month_out_of_range_iff. exists r, q. auto.
          - destruct (Qlt_le_dec 12 q) as [Hgt|Hle]; [|split; assumption].
            assert (month_out_of_range (coerce df) = true); [|congruence].
            apply month_out_of_range_iff. exists r, q. auto. }
        assert (Hex : exists q, In (Num q) (map Bulan ft)).
        { destruct (Hnum r0 Hr0) as (q & E & _). exists q. apply HB.
          exists r0. rewrite E. auto. }
        assert (Hin : forall q, In (Num q) (map Bulan ft) -> 1 <= q <= 12).
        { intros q Hq. apply HB in Hq. destruct Hq as (r & Hr & E).
          destruct (Hnum r Hr) as (q' & E' & Hq'). rewrite E' in E.
          simpl in E. inversion E; subst. exact Hq'. }
        split; (split; [exact Hex|]); intros q Hq; apply Hin in Hq; tauto. }
    destruct b; split; intro Hx; try reflexivity; try discriminate.
    + now apply Hb.
    + apply Hb in Hx. discriminate.
  - set (b := existsb (fun x => nlt x (Num 0)) (map total_jumlah ft)).
    assert (Hb : b = true <->
              exists r q, In r (records df)
                          /\ to_numeric (r_total_jumlah r) = Num q /\ q < 0).
    { unfold b. rewrite existsb_exists. split.
      - intros (x & Hx & Hneg). apply HQ in Hx. destruct Hx as (r & Hr & ->).
        destruct (to_numeric (r_total_jumlah r)) as [q|] eqn:E; simpl in Hneg.
        + apply Qlt_bool_iff in Hneg. exists r, q. auto.
        + apply Qlt_bool_iff in Hneg. lra.
      - intros (r & q & Hr & E & Hq). exists (Num q). split.
        + apply HQ. exists r. rewrite E. auto.
        + now apply nlt_Num. }
    destruct b; split; intro Hx; try reflexivity; try discriminate.
    + now apply Hb.
    + apply Hb in Hx. discriminate.
Qed.
End SummaryFacts.

Lemma dashboard_summary_witness :
  exists y m n,
    validation_status ft_two_items = [DataNotEmpty; ColumnsAvailable; y; m; n]
    /\ (y = YearRangeValid <->
        forall r, In r (records df_two_items) ->
          exists q, to_numeric (r_Tahun r) = Num q /\ 1900 <= q <= 2100)
    /\ (m = MonthRangeValid <->
        forall r, In r (records df_two_items) -> to_numeric (r_Bulan r) <> NaN)
    /\ (n = NegativeSalesPresent <->
        exists r q, In r (records df_two_items)
                    /\ to_numeric (r_total_jumlah r) = Num q /\ q < 0).
Proof.
  apply (@dashboard_summary reference_library df_two_items ft_two_items).
  vm_compute. reflexivity.
Defined.
